(** * ResearchAgent: the parser, sampler, query client and formatter of
    [researchllm.py], embedded in Rocq.

    Python text is a list of characters.  A character is a code point below
    256 (the Latin-1 range), on which [str.isspace], the regular expression
    classes [\s] and [\d], and [str.lower] are closed; text with code points
    above 255 is outside this model.  Python exceptions are values of [exn],
    and code that may raise returns a [py]. *)

From Stdlib Require Import Ascii String DecimalString.
From Stdlib Require Import List NArith ZArith Bool Arith Lia.
Import ListNotations.

(** ** Python strings *)

Definition str : Type := list ascii.

(** A string literal of the source. *)
Definition lit (s : string) : str := list_ascii_of_string s.

Definition newline : str := lit (String "010" EmptyString).

Definition ascii_in (lo hi : N) (c : ascii) : bool :=
  (lo <=? N_of_ascii c)%N && (N_of_ascii c <=? hi)%N.

(** [str.isspace] on one character, which is also the class [\s] of [re]
    on text: TAB..CR, FS..US, space, NEL and the no-break space. *)
Definition is_space (c : ascii) : bool :=
  ascii_in 9 13 c || ascii_in 28 32 c || ascii_in 133 133 c || ascii_in 160 160 c.

(** The class [\d] of [re]: below 256 the only decimal digits are 0..9. *)
Definition is_digit (c : ascii) : bool := ascii_in 48 57 c.

(** [str.lower] on one character: A..Z and the Latin-1 capitals
    (0xC0..0xDE without the multiplication sign 0xD7) move up by 32. *)
Definition lower_char (c : ascii) : ascii :=
  if ascii_in 65 90 c
     || (ascii_in 192 222 c && negb (ascii_in 215 215 c))
  then ascii_of_N (N_of_ascii c + 32)
  else c.

Definition lower (s : str) : str := map lower_char s.

Definition str_eqb (a b : str) : bool :=
  if list_eq_dec ascii_dec a b then true else false.

(** [s.startswith(p)], returning what follows the prefix. *)
Fixpoint strip_prefix (p s : str) : option str :=
  match p, s with
  | [], _ => Some s
  | _ :: _, [] => None
  | a :: p', b :: s' => if Ascii.eqb a b then strip_prefix p' s' else None
  end.

Definition startswith (s p : str) : bool :=
  match strip_prefix p s with Some _ => true | None => false end.

(** Dropping the leading characters that satisfy [f]. *)
Fixpoint drop_while (f : ascii -> bool) (s : str) : str :=
  match s with
  | [] => []
  | c :: s' => if f c then drop_while f s' else s
  end.

Definition lstrip_by (f : ascii -> bool) (s : str) : str := drop_while f s.
Definition rstrip_by (f : ascii -> bool) (s : str) : str :=
  rev (drop_while f (rev s)).
Definition strip_by (f : ascii -> bool) (s : str) : str :=
  rstrip_by f (lstrip_by f s).

(** [s.strip()] and [s.strip('*')]. *)
Definition strip (s : str) : str := strip_by is_space s.
Definition is_star (c : ascii) : bool := Ascii.eqb c "*"%char.
Definition strip_stars (s : str) : str := strip_by is_star s.

(** ** Exceptions *)

(** What a failed dictionary lookup reports: the key that was asked for. *)
Inductive key : Type :=
| KText (s : str)
| KInt (n : Z).

Inductive exn : Type :=
| IndexError
| KeyError (k : key)
| TypeError
| AttributeError
| RequestException (msg : str)
| OtherException (msg : str).

Inductive py (A : Type) : Type :=
| Ok (a : A)
| Raise (e : exn).
Arguments Ok {A} a.
Arguments Raise {A} e.

Definition bind {A B} (m : py A) (k : A -> py B) : py B :=
  match m with
  | Ok a => k a
  | Raise e => Raise e
  end.

Notation "x <- m ;; k" := (bind m (fun x => k))
  (at level 61, m at next level, right associativity).

(** [l[i]] on a list, for an index that is not negative. *)
Definition index {A} (l : list A) (i : nat) : py A :=
  match nth_error l i with
  | Some a => Ok a
  | None => Raise IndexError
  end.

(** A [for] loop that threads an accumulator and stops at the first
    exception. *)
Fixpoint for_each {A S} (body : S -> A -> py S) (l : list A) (s : S) : py S :=
  match l with
  | [] => Ok s
  | a :: l' => s' <- body s a ;; for_each body l' s'
  end.

(** ** Splitting on matches

    [str.split(sep)] and [re.split(pattern, s)] cut the text at the leftmost
    match, then go on behind it.  A matcher tells, for the text at some
    position, what is left behind a match that starts there. *)

Section Splitting.

Variable matcher : str -> option str.

(** The leftmost match: the text before it and the text behind it. *)
Fixpoint find_match (s : str) : option (str * str) :=
  match matcher s with
  | Some rest => Some ([], rest)
  | None =>
      match s with
      | [] => None
      | c :: s' =>
          match find_match s' with
          | Some (before, rest) => Some (c :: before, rest)
          | None => None
          end
      end
  end.

(** No piece is cut more often than the text has characters, since a match
    of the matchers used here is never empty. *)
Fixpoint split_fuel (fuel : nat) (s : str) : list str :=
  match fuel with
  | 0 => [s]
  | S fuel' =>
      match find_match s with
      | Some (before, rest) => before :: split_fuel fuel' rest
      | None => [s]
      end
  end.

Definition split_matches (s : str) : list str := split_fuel (length s) s.

End Splitting.

(** [s.split(sep)] for a separator that is not empty (Python raises
    ValueError on an empty one; the source passes literals only). *)
Definition str_split (sep s : str) : list str :=
  split_matches (strip_prefix sep) s.

(** ** The category parser *)

Definition obind {A B} (m : option A) (k : A -> option B) : option B :=
  match m with
  | Some a => k a
  | None => None
  end.

(** One or more characters of a class, as many as there are ([\d+], [\s+]). *)
Definition many1 (f : ascii -> bool) (s : str) : option str :=
  match s with
  | c :: _ => if f c then Some (drop_while f s) else None
  | [] => None
  end.

(** The pattern [\*\*\d+\.\s+] tried at the start of [s].  Taking every digit
    and every blank is what the backtracking engine of [re] settles on: the
    period that must follow the digits is not a digit, so giving digits back
    never helps, and the blanks end the pattern. *)
Definition match_marker (s : str) : option str :=
  obind (strip_prefix (lit "**") s) (fun s1 =>
  obind (many1 is_digit s1) (fun s2 =>
  obind (strip_prefix (lit ".") s2) (fun s3 =>
  many1 is_space s3))).

(** [re.split(r'\*\*\d+\.\s+', text)] *)
Definition re_split_marker (text : str) : list str :=
  split_matches match_marker text.

(** The [details] dictionary of one category: each of its three keys
    ['description'], ['research_prompt'] and ['key_concepts'] is set or
    absent. *)
Record details : Type := mkDetails {
  description : option str;
  research_prompt : option str;
  key_concepts : option (list str)
}.

Definition no_details : details := mkDetails None None None.

(** A Python dictionary with text keys, in insertion order: assigning to a
    key that is present replaces its value in place, a new key goes last.
    The order is kept because the sampler chooses from [list(d.keys())] by
    position. *)
Definition dict (V : Type) : Type := list (str * V).

Fixpoint dict_set {V} (d : dict V) (k : str) (v : V) : dict V :=
  match d with
  | [] => [(k, v)]
  | (k', v') :: d' =>
      if str_eqb k' k then (k', v) :: d' else (k', v') :: dict_set d' k v
  end.

Fixpoint dict_get {V} (d : dict V) (k : str) : option V :=
  match d with
  | [] => None
  | (k', v') :: d' => if str_eqb k' k then Some v' else dict_get d' k
  end.

Definition keys {V} (d : dict V) : list str := map fst d.

(** [d[k]] *)
Definition subscript {V} (d : dict V) (k : str) : py V :=
  match dict_get d k with
  | Some v => Ok v
  | None => Raise (KeyError (KText k))
  end.


(** The body of the inner loop: one line of a category against the three
    bullets. *)
Definition parse_line (d : details) (line : str) : py details :=
  if startswith line (lit "* **Description:**") then
    v <- index (str_split (lit "**Description:**") line) 1 ;;
    Ok (mkDetails (Some (strip v)) (research_prompt d) (key_concepts d))
  else if startswith line (lit "* **Research Prompt:**") then
    v <- index (str_split (lit "**Research Prompt:**") line) 1 ;;
    Ok (mkDetails (description d) (Some (strip_stars (strip v))) (key_concepts d))
  else if startswith line (lit "* **Key Concepts:**") then
    v <- index (str_split (lit "**Key Concepts:**") line) 1 ;;
    Ok (mkDetails (description d) (research_prompt d)
                  (Some (map strip (str_split (lit ",") (strip v)))))
  else Ok d.

(** The body of the outer loop: one category text into the dictionary. *)
Definition parse_category (research_dict : dict details) (category : str)
  : py (dict details) :=
  let lines := str_split newline (strip category) in
  name_line <- index lines 0 ;;
  let category_name := strip_stars name_line in
  d <- for_each parse_line (tl lines) no_details ;;
  Ok (dict_set research_dict category_name d).

Definition parse_research_categories (text : str) : py (dict details) :=
  let categories := tl (re_split_marker text) in
  for_each parse_category categories [].

(** ** The prompt sampler *)

(** The random source: an endless supply of draws.  [random.choice] takes
    the next draw, reduced below the length of the sequence, so every
    element can come out. *)
Definition rng : Type := nat -> nat.

Definition next (g : rng) : rng := fun i => g (S i).

(** [random.choice(seq)] *)
Definition random_choice {A} (seq : list A) (g : rng) : py (A * rng) :=
  match seq with
  | [] => Raise IndexError
  | _ :: _ =>
      a <- index seq (g 0 mod length seq) ;;
      Ok (a, next g)
  end.

Definition template (concept category : str) : str :=
  lit "How can " ++ concept ++ lit " be applied in " ++ category
    ++ lit " to improve solar farm efficiency?".

Definition key_research_prompt : str := lit "research_prompt".
Definition key_key_concepts : str := lit "key_concepts".

(** [category_data['research_prompt']] and [category_data['key_concepts']] *)
Definition get_research_prompt (d : details) : py str :=
  match research_prompt d with
  | Some p => Ok p
  | None => Raise (KeyError (KText key_research_prompt))
  end.

Definition get_key_concepts (d : details) : py (list str) :=
  match key_concepts d with
  | Some l => Ok l
  | None => Raise (KeyError (KText key_key_concepts))
  end.

(** One turn of the loop of [generate_research_prompts]. *)
Definition sample_prompt (research_dict : dict details) (g : rng)
  : py (str * rng) :=
  let categories := keys research_dict in
  c <- random_choice categories g ;;
  let '(category, g1) := c in
  category_data <- subscript research_dict category ;;
  b <- random_choice [true; false] g1 ;;
  let '(coin, g2) := b in
  if (coin : bool) then
    prompt <- get_research_prompt category_data ;;
    Ok (prompt, g2)
  else
    concepts <- get_key_concepts category_data ;;
    k <- random_choice concepts g2 ;;
    let '(concept, g3) := k in
    Ok (template (lower concept) (lower category), g3).

Fixpoint sample_loop (research_dict : dict details) (turns : nat)
  (prompts : list str) (g : rng) : py (list str * rng) :=
  match turns with
  | 0 => Ok (prompts, g)
  | S turns' =>
      r <- sample_prompt research_dict g ;;
      let '(prompt, g') := r in
      sample_loop research_dict turns' (prompts ++ [prompt]) g'
  end.

(** [range(n)] runs no turn for [n <= 0]. *)
Definition generate_research_prompts (research_dict : dict details)
  (num_prompts : Z) (g : rng) : py (list str) :=
  r <- sample_loop research_dict (Z.to_nat num_prompts) [] g ;;
  Ok (fst r).

(** ** JSON values

    What [response.json()] returns and what [json=data] sends: [None],
    booleans, numbers, text, lists and dictionaries with text keys.  A number
    is an integer or a decimal literal [m * 10^e]. *)

#[local] Unset Elimination Schemes.
Inductive json : Type :=
| JNull
| JBool (b : bool)
| JNum (n : Z)
| JDec (m e : Z)
| JStr (s : str)
| JArr (l : list json)
| JObj (m : list (str * json)).
#[local] Set Elimination Schemes.

(** [not v] is the negation of this. *)
Definition truthy (v : json) : bool :=
  match v with
  | JNull => false
  | JBool b => b
  | JNum n => negb (n =? 0)%Z
  | JDec m _ => negb (m =? 0)%Z
  | JStr s => match s with [] => false | _ => true end
  | JArr l => match l with [] => false | _ => true end
  | JObj m => match m with [] => false | _ => true end
  end.

(** [v[k]] for a text key: only a dictionary takes one. *)
Definition subscript_key (v : json) (k : str) : py json :=
  match v with
  | JObj m => subscript m k
  | _ => Raise TypeError
  end.

(** [v[0]]: the first element of a list, the first character of a text; a
    dictionary from JSON has no key [0]. *)
Definition subscript_zero (v : json) : py json :=
  match v with
  | JArr l => index l 0
  | JStr s => c <- index s 0 ;; Ok (JStr [c])
  | JObj _ => Raise (KeyError (KInt 0))
  | _ => Raise TypeError
  end.

(** [v.get(k, default)]: a method of dictionaries only. *)
Definition get_default (v : json) (k : str) (default : json) : py json :=
  match v with
  | JObj m => match dict_get m k with Some x => Ok x | None => Ok default end
  | _ => Raise AttributeError
  end.

(** What [for x in v] goes through: the elements of a list, the keys of a
    dictionary, the characters of a text. *)
Definition iterate (v : json) : py (list json) :=
  match v with
  | JArr l => Ok l
  | JObj m => Ok (map (fun kv => JStr (fst kv)) m)
  | JStr s => Ok (map (fun c => JStr [c]) s)
  | _ => Raise TypeError
  end.

(** ** The result formatter *)

Section Formatter.

(** The text that the built-in [str] gives for a value that is not a text
    (the printing of numbers, lists and dictionaries is Python's own). *)
Variable str_of : json -> str.

(** A replacement field [{v}] of an f-string. *)
Definition format_value (v : json) : str :=
  match v with
  | JStr s => s
  | _ => str_of v
  end.

Definition add_citation (formatted_output : str) (citation : json) : py str :=
  u <- subscript_key citation (lit "url") ;;
  Ok (formatted_output ++ lit "- " ++ format_value u ++ newline).

Definition format_output (response : json) : py str :=
  if negb (truthy response) then
    Ok (lit "No response received from Perplexity AI.")
  else
    choices <- subscript_key response (lit "choices") ;;
    choice <- subscript_zero choices ;;
    message <- subscript_key choice (lit "message") ;;
    content <- subscript_key message (lit "content") ;;
    citations <- get_default response (lit "citations") (JArr []) ;;
    let formatted_output :=
      lit "
Research Results:

" ++ format_value content ++ lit "

Sources:
" in
    items <- iterate citations ;;
    for_each add_citation items formatted_output.

End Formatter.

(** ** The research query client *)

(** What [requests.post] is called with, and the response object it
    returns. *)
Record request : Type := mkRequest {
  req_url : str;
  req_headers : list (str * str);
  req_json : json;
  req_timeout : Z
}.

Record response : Type := mkResponse {
  status_code : Z;
  reason : str;
  resp_url : str;
  (** the outcome of [response.json()] *)
  resp_json : py json
}.

(** The network as the client sees it: a request is answered by a response
    or by an exception. *)
Definition network : Type := request -> py response.

(** What the run leaves behind: the requests sent and what is shown to the
    user. *)
Inductive event : Type :=
| Post (r : request)
| StError (msg : str)
| StMarkdown (text : str).

(** A computation that logs events and may raise; the log survives an
    exception. *)
Definition io (A : Type) : Type := list event -> py A * list event.

Definition io_ret {A} (a : A) : io A := fun log => (Ok a, log).

Definition io_bind {A B} (m : io A) (k : A -> io B) : io B :=
  fun log =>
    match m log with
    | (Ok a, log') => k a log'
    | (Raise e, log') => (Raise e, log')
    end.

Notation "x <~ m ;; k" := (io_bind m (fun x => k))
  (at level 61, m at next level, right associativity).

Definition io_lift {A} (m : py A) : io A := fun log => (m, log).

Definition emit (e : event) : io unit := fun log => (Ok tt, log ++ [e]).

(** [try: body except (the exceptions handler accepts) as e: handler e] *)
Definition try_except {A} (body : io A) (handler : exn -> option (io A)) : io A :=
  fun log =>
    match body log with
    | (Ok a, log') => (Ok a, log')
    | (Raise e, log') =>
        match handler e with
        | Some h => h log'
        | None => (Raise e, log')
        end
    end.

Definition decimal (n : Z) : str :=
  lit (DecimalString.NilZero.string_of_int (Z.to_int n)).

(** [Response.raise_for_status] of the requests library: an HTTPError, which
    is a RequestException, for the statuses 400..599 and nothing else. *)
Definition raise_for_status (r : response) : py unit :=
  if (400 <=? status_code r)%Z && (status_code r <? 500)%Z then
    Raise (RequestException
      (decimal (status_code r) ++ lit " Client Error: " ++ reason r
         ++ lit " for url: " ++ resp_url r))
  else if (500 <=? status_code r)%Z && (status_code r <? 600)%Z then
    Raise (RequestException
      (decimal (status_code r) ++ lit " Server Error: " ++ reason r
         ++ lit " for url: " ++ resp_url r))
  else Ok tt.

(** [Response.ok] of the requests library: whether [raise_for_status]
    passes, which is false for the client and server errors 400..599. *)
Definition ok (r : response) : bool :=
  match raise_for_status r with
  | Ok _ => true
  | Raise _ => false
  end.

Section Client.

Variable net : network.

(** [requests.post(url, headers=..., json=..., timeout=...)] *)
Definition requests_post (url : str) (headers : list (str * str))
  (data : json) (timeout : Z) : io response :=
  let r := mkRequest url headers data timeout in
  _ <~ emit (Post r) ;; io_lift (net r).

Definition st_error (msg : str) : io unit := emit (StError msg).

Definition query_perplexity (prompt api_key : str) : io json :=
  let url := lit "https://api.perplexity.ai/chat/completions" in
  let headers :=
    [ (lit "Authorization", lit "Bearer " ++ api_key);
      (lit "Content-Type", lit "application/json") ] in
  let data := JObj
    [ (lit "model", JStr (lit "llama-3.1-sonar-small-128k-online"));
      (lit "messages", JArr
         [ JObj [ (lit "role", JStr (lit "system"));
                  (lit "content", JStr (lit "You are a helpful research assistant.")) ];
           JObj [ (lit "role", JStr (lit "user"));
                  (lit "content", JStr prompt) ] ]);
      (lit "max_tokens", JNum 2000);
      (lit "temperature", JDec 2 (-1));
      (lit "return_citations", JBool true) ] in
  try_except
    (response <~ requests_post url headers data 30 ;;
     _ <~ io_lift (raise_for_status response) ;;
     io_lift (resp_json response))
    (fun e =>
       match e with
       | RequestException msg =>
           Some (_ <~ st_error (lit "Error querying Perplexity AI: " ++ msg) ;;
                 io_ret JNull)
       | _ => None
       end).

End Client.

(** ** The research loop of the page *)

Definition dquote : str := [ascii_of_N 34].

(** [create_prompt(topic, depth, focus)], with [depth] the integer of the
    slider. *)
Definition create_prompt (topic : str) (depth : Z) (focus : str) : str :=
  lit "Conduct a comprehensive research on the topic: " ++ dquote ++ topic
    ++ dquote ++ lit ".
    Depth of research: " ++ decimal depth ++ lit "/5
    Focus areas: " ++ focus ++ lit "

    Please provide:
    1. A brief overview of the topic
    2. Key findings or main points (bulleted list)
    3. Important details or explanations for each main point
    4. Any relevant statistics or data
    5. Current trends or future outlook
    6. Potential applications or implications
    7. Challenges or limitations
    8. Conclusion or summary

    Be precise and concise in your explanations.".

Section Page.

Variable net : network.
Variable str_of : json -> str.
Variables (depth : Z) (research_field api_key : str).

(** One turn of the loop over the sampled prompts: query, format, show
    ([st.spinner] and [st.expander] only lay the page out). *)
Definition research_result (prompt : str) : io unit :=
  let full_prompt := create_prompt prompt depth research_field in
  response <~ query_perplexity net full_prompt api_key ;;
  formatted_result <~ io_lift (format_output str_of response) ;;
  emit (StMarkdown formatted_result).

Fixpoint research_results (research_prompts : list str) : io unit :=
  match research_prompts with
  | [] => io_ret tt
  | prompt :: rest => _ <~ research_result prompt ;; research_results rest
  end.

End Page.

(** ** Vocabulary of the properties *)

(** A category record with a research prompt and at least one key concept. *)
Definition complete (d : details) : Prop :=
  exists p l, research_prompt d = Some p /\ key_concepts d = Some l /\ l <> [].

(** A sampled prompt is the research prompt of a category of the map, or the
    template filled with the lower-cased name of a category of the map and a
    lower-cased key concept of that category. *)
Definition sampled_from (research_dict : dict details) (prompt : str) : Prop :=
  (exists k d, dict_get research_dict k = Some d /\ research_prompt d = Some prompt)
  \/ (exists k d l c,
        dict_get research_dict k = Some d /\ key_concepts d = Some l /\ In c l
        /\ prompt = template (lower c) (lower k)).

(** The random source that replays the given draws, then zeros. *)
Definition draws (l : list nat) : rng := fun i => nth i l 0.

(** A citation object of the API: a dictionary whose [url] is a text. *)
Definition citation (url : str) (c : json) : Prop :=
  exists m, c = JObj m /\ dict_get m (lit "url") = Some (JStr url).

(** The line that the formatter writes for one citation. *)
Definition source_line (url : str) : str := lit "- " ++ url ++ newline.

(** The request that [query_perplexity] builds for a prompt and a key. *)
Definition perplexity_request (prompt api_key : str) : request :=
  mkRequest
    (lit "https://api.perplexity.ai/chat/completions")
    [ (lit "Authorization", lit "Bearer " ++ api_key);
      (lit "Content-Type", lit "application/json") ]
    (JObj
      [ (lit "model", JStr (lit "llama-3.1-sonar-small-128k-online"));
        (lit "messages", JArr
           [ JObj [ (lit "role", JStr (lit "system"));
                    (lit "content", JStr (lit "You are a helpful research assistant.")) ];
             JObj [ (lit "role", JStr (lit "user"));
                    (lit "content", JStr prompt) ] ]);
        (lit "max_tokens", JNum 2000);
        (lit "temperature", JDec 2 (-1));
        (lit "return_citations", JBool true) ])
    30.

(** The number of request attempts in a log. *)
Fixpoint attempts (log : list event) : nat :=
  match log with
  | [] => 0
  | Post _ :: log' => S (attempts log')
  | _ :: log' => attempts log'
  end.

(** A query that fails: at the transport level, where [requests.post] raises
    a RequestException (no connection, timeout, ...), or by the status of
    the response, one that is not [ok]. *)
Definition failed_query (answer : py response) : Prop :=
  (exists msg, answer = Raise (RequestException msg))
  \/ (exists r, answer = Ok r /\ ok r = false).

Definition no_response : str := lit "No response received from Perplexity AI.".

(** A marker: two asterisks, one or more digits, a period, one or more
    blanks. *)
Definition marker (m : str) : Prop :=
  exists ds ws,
    m = lit "**" ++ ds ++ lit "." ++ ws
    /\ ds <> [] /\ forallb is_digit ds = true
    /\ ws <> [] /\ forallb is_space ws = true.

(** A text that holds no marker. *)
Definition no_marker (s : str) : Prop :=
  forall before m behind, marker m -> s <> before ++ m ++ behind.

(** [sep in s] *)
Definition occurs (sep s : str) : Prop :=
  exists before behind, s = before ++ sep ++ behind.

(** Whether a match of the pattern starts somewhere in [s]. *)
Definition has_marker (s : str) : bool :=
  existsb (fun i => match match_marker (skipn i s) with
                    | Some _ => true
                    | None => false
                    end)
          (seq 0 (S (length s))).

(** What may follow a piece of text: the end, or the two asterisks of the
    next marker. *)
Definition boundary (s : str) : Prop :=
  s = [] \/ exists s', s = lit "**" ++ s'.

(** The text of a sequence of blocks, each a marker and what follows it. *)
Definition blocks_text (blocks : list (str * str)) : str :=
  concat (map (fun mb => fst mb ++ snd mb) blocks).

(** [line.split(label)[1]], where it exists. *)
Definition piece (label line : str) : str := nth 1 (str_split label line) [].

(** What [parse_line] returns, as a plain function. *)
Definition read_line (d : details) (line : str) : details :=
  if startswith line (lit "* **Description:**") then
    mkDetails (Some (strip (piece (lit "**Description:**") line)))
              (research_prompt d) (key_concepts d)
  else if startswith line (lit "* **Research Prompt:**") then
    mkDetails (description d)
              (Some (strip_stars (strip (piece (lit "**Research Prompt:**") line))))
              (key_concepts d)
  else if startswith line (lit "* **Key Concepts:**") then
    mkDetails (description d) (research_prompt d)
              (Some (map strip (str_split (lit ",")
                                  (strip (piece (lit "**Key Concepts:**") line)))))
  else d.

(** The name and the record that [parse_category] reads from a category
    text. *)
Definition category_lines (category : str) : list str :=
  str_split newline (strip category).

Definition category_name (category : str) : str :=
  strip_stars (hd [] (category_lines category)).

Definition category_details (category : str) : details :=
  fold_left read_line (tl (category_lines category)) no_details.

(** One turn of the outer loop of the parser, as a plain function. *)
Definition add_category (d : dict details) (category : str) : dict details :=
  dict_set d (category_name category) (category_details category).

(** The body of a block has one line that starts with [label], and [text]
    is what follows the label on it. *)
Definition one_line (label : str) (body : list str) (text : str) : Prop :=
  In (label ++ text) body
  /\ forall line, In line body -> startswith line label = true -> line = label ++ text.

(** A well-formed block: its first line is the category name, and its body
    has one line for each of the three bullets; [concepts] is the text after
    the Key Concepts label. *)
Definition well_formed_block (block name concepts : str) : Prop :=
  exists name_line body description prompt,
    str_split newline (strip block) = name_line :: body
    /\ name = strip_stars name_line
    /\ one_line (lit "* **Description:**") body description
    /\ one_line (lit "* **Research Prompt:**") body prompt
    /\ one_line (lit "* **Key Concepts:**") body concepts.

(** A record with all three fields, whose key concepts are [concepts] split
    on commas and trimmed. *)
Definition full_record (r : details) (concepts : str) : Prop :=
  exists d p,
    r = mkDetails (Some d) (Some p)
                  (Some (map strip (str_split (lit ",") (strip concepts)))).

(** A block of the text: the marker that introduces it and what follows up
    to the next marker, well formed. *)
Definition block (m b name concepts : str) : Prop :=
  marker m /\ no_marker b /\ well_formed_block b name concepts.

(** [sep in s], computed. *)
Definition contains (sep s : str) : bool :=
  existsb (fun i => match strip_prefix sep (skipn i s) with
                    | Some _ => true
                    | None => false
                    end)
          (seq 0 (S (length s))).

(** ** Sample data *)

(** A map of two complete records. *)
Definition sample_dict : dict details :=
  [ (lit "Drones", mkDetails (Some (lit "Using drones."))
                             (Some (lit "How do drones help?"))
                             (Some [lit "Thermal Imaging"; lit "LiDAR"]));
    (lit "Robots", mkDetails None
                             (Some (lit "How do robots help?"))
                             (Some [lit "Cleaning"])) ].

(** A category record without a research prompt. *)
Definition promptless_dict : dict details :=
  [ (lit "Drones", mkDetails (Some (lit "Using drones.")) None
                             (Some [lit "LiDAR"])) ].

(** A category record with an empty list of key concepts. *)
Definition conceptless_dict : dict details :=
  [ (lit "Drones", mkDetails None (Some (lit "How do drones help?"))
                             (Some [lit "LiDAR"]));
    (lit "Robots", mkDetails None (Some (lit "How do robots help?"))
                             (Some [])) ].

(** An answer of the API with the content [X] and two citations. *)
Definition sample_response : list (str * json) :=
  [ (lit "id", JStr (lit "42"));
    (lit "choices",
       JArr [ JObj [ (lit "index", JNum 0);
                     (lit "message",
                        JObj [ (lit "role", JStr (lit "assistant"));
                               (lit "content", JStr (lit "X")) ]) ] ]);
    (lit "citations",
       JArr [ JObj [(lit "url", JStr (lit "http://a"))];
              JObj [(lit "url", JStr (lit "http://b"))] ]) ].

(** A network without connection. *)
Definition offline : network :=
  fun _ => Raise (RequestException (lit "Connection refused")).

(** A network that answers every request with the status 300 and an empty
    JSON object. *)
Definition multiple_choices : network :=
  fun _ => Ok (mkResponse 300 (lit "Multiple Choices") [] (Ok (JObj []))).

(** A text whose first and third block have the same name. *)
Definition twice_drones : str := lit "Plan:
**1. Drones**
* **Description:** first
**2. Robots**
* **Description:** second
**3. Drones**
* **Research Prompt:** third
".

(** The pieces of a text of three well-formed blocks. *)
Definition intro_text : str := lit "Here are the categories:

".

Definition drones_block : str := lit "Drones**
* **Description:** Using drones.
* **Research Prompt:** **How do drones help?**
* **Key Concepts:** A, B,C

".

Definition robots_block : str := lit "Robots**
* **Description:** Using robots.
* **Research Prompt:** How do robots help?
* **Key Concepts:** Cleaning ,Brushes

".

Definition sensors_block : str := lit "Sensors
* **Key Concepts:** IoT
* **Description:** Using sensors.
* **Research Prompt:** How do sensors help?
".

Definition three_blocks_text : str :=
  intro_text ++ lit "**1. " ++ drones_block ++ lit "**2. " ++ robots_block
    ++ lit "**3. " ++ sensors_block.

(** A block whose Key Concepts line holds the label a second time. *)
Definition lidar_block : str := lit "Lidar
* **Description:** Using lidar.
* **Research Prompt:** How does lidar help?
* **Key Concepts:** A, **Key Concepts:** B
".

(** A record with a research prompt and without key concepts. *)
Definition prompt_only_dict : dict details :=
  [ (lit "Drones", mkDetails None (Some (lit "How do drones help?")) None) ].

(** A network that answers every request with the status 200 and a JSON
    object without [choices]. *)
Definition choiceless : network :=
  fun _ => Ok (mkResponse 200 (lit "OK") []
                 (Ok (JObj [(lit "error", JStr (lit "none"))]))).

(** ** The two modes of the page

    What happens when a button of the page is pressed.  The page shows
    subheaders and written lines besides what the research loop logs. *)

Inductive page_event : Type :=
| Core (e : event)
| StSubheader (text : str)
| StWrite (text : str).

Definition page (A : Type) : Type := list page_event -> py A * list page_event.

Definition page_ret {A} (a : A) : page A := fun log => (Ok a, log).

Definition page_bind {A B} (m : page A) (k : A -> page B) : page B :=
  fun log =>
    match m log with
    | (Ok a, log') => k a log'
    | (Raise e, log') => (Raise e, log')
    end.

Notation "x <-- m ;; k" := (page_bind m (fun x => k))
  (at level 61, m at next level, right associativity).

Definition page_lift {A} (m : py A) : page A := fun log => (m, log).

Definition page_emit (e : page_event) : page unit :=
  fun log => (Ok tt, log ++ [e]).

(** A computation of the client or the loop, run on the page: what it logs
    is added to the log of the page. *)
Definition page_io {A} (m : io A) : page A :=
  fun log => let '(r, l) := m [] in (r, log ++ map Core l).

Definition st_subheader (text : str) : page unit := page_emit (StSubheader text).
Definition st_write (text : str) : page unit := page_emit (StWrite text).
Definition st_markdown (text : str) : page unit := page_emit (Core (StMarkdown text)).

(** [for i, prompt in enumerate(research_prompts, i): st.write(f"{i}. {prompt}")] *)
Fixpoint write_prompts (i : Z) (research_prompts : list str) : page unit :=
  match research_prompts with
  | [] => page_ret tt
  | prompt :: rest =>
      _ <-- st_write (decimal i ++ lit ". " ++ prompt) ;;
      write_prompts (i + 1) rest
  end.

Section Modes.

(** [generate_research_categories], the chain of the language model: field
    and topic in, the answer text out, or an exception. *)
Variable generate_research_categories : str -> str -> py str.
Variable net : network.
Variable str_of : json -> str.
(** [PERPLEXITY_API_KEY] *)
Variable api_key : str.

(** The button of the mode "Generate Research Prompts", with the values of
    its four inputs and the random source. *)
Definition generate_and_query (research_field research_topic : str)
  (num_prompts depth : Z) (g : rng) : page unit :=
  result <-- page_lift (generate_research_categories research_field research_topic) ;;
  res <-- page_lift (parse_research_categories result) ;;
  research_prompts <-- page_lift (generate_research_prompts res num_prompts g) ;;
  _ <-- st_subheader (lit "Generated Research Prompts:") ;;
  _ <-- write_prompts 1 research_prompts ;;
  _ <-- st_subheader (lit "Research Results:") ;;
  page_io (research_results net str_of depth research_field api_key research_prompts).

(** The button of the mode "Direct Perplexity AI Query". *)
Definition direct_query (user_prompt : str) : page unit :=
  formatted_result <--
    page_io (response <~ query_perplexity net user_prompt api_key ;;
             io_lift (format_output str_of response)) ;;
  _ <-- st_subheader (lit "Research Result:") ;;
  st_markdown formatted_result.

End Modes.

(** The number of request attempts, and of lines written, in the log of the
    page. *)
Fixpoint page_attempts (log : list page_event) : nat :=
  match log with
  | [] => 0
  | Core (Post _) :: log' => S (page_attempts log')
  | _ :: log' => page_attempts log'
  end.

Fixpoint page_writes (log : list page_event) : nat :=
  match log with
  | [] => 0
  | StWrite _ :: log' => S (page_writes log')
  | _ :: log' => page_writes log'
  end.

(** ** Vocabulary of further properties *)

(** The last line that starts with [label], if there is one. *)
Definition last_line (label : str) (lines : list str) : option str :=
  find (fun line => startswith line label) (rev lines).

(** A record as the parser leaves it: the description has no blank at
    either end, the research prompt no asterisk at either end, and the key
    concepts are at least one, none with a blank at either end. *)
Definition trimmed (r : details) : Prop :=
  (forall v, description r = Some v -> strip v = v)
  /\ (forall v, research_prompt r = Some v -> strip_stars v = v)
  /\ (forall l, key_concepts r = Some l ->
        l <> [] /\ forall c, In c l -> strip c = c).

(** The ways a map makes the sampler raise: it has no category, or one of
    its records lacks the research prompt, lacks the key concepts, or has an
    empty list of key concepts. *)
Definition sampling_fault (research_dict : dict details) (e : exn) : Prop :=
  (research_dict = [] /\ e = IndexError)
  \/ exists k r,
       dict_get research_dict k = Some r
       /\ ((research_prompt r = None /\ e = KeyError (KText (lit "research_prompt")))
           \/ (key_concepts r = None /\ e = KeyError (KText (lit "key_concepts")))
           \/ (key_concepts r = Some [] /\ e = IndexError)).

(** The number of results shown in a log. *)
Fixpoint markdowns (log : list event) : nat :=
  match log with
  | [] => 0
  | StMarkdown _ :: log' => S (markdowns log')
  | _ :: log' => markdowns log'
  end.

(** What the three steps in the [try] of [query_perplexity] give for a
    request: the answer of the network, its status checked, its body read. *)
Definition answer_of (net : network) (req : request) : py json :=
  r <- net req ;; _ <- raise_for_status r ;; resp_json r.

(** [sep.join(pieces)] *)
Fixpoint join (sep : str) (pieces : list str) : str :=
  match pieces with
  | [] => []
  | [piece] => piece
  | piece :: rest => piece ++ sep ++ join sep rest
  end.

(** ** The sampled prompts in the words of the specification *)

(** The capital letters of the Latin-1 range and, at the same positions,
    their small letters: A..Z, then the accented capitals 0xC0..0xDE (the
    multiplication sign 0xD7 is no letter). *)
Definition capital_letters : str :=
  lit "ABCDEFGHIJKLMNOPQRSTUVWXYZ"
    ++ map ascii_of_N
         [192; 193; 194; 195; 196; 197; 198; 199; 200; 201; 202; 203; 204; 205;
          206; 207; 208; 209; 210; 211; 212; 213; 214; 216; 217; 218; 219; 220;
          221; 222]%N.

Definition small_letters : str :=
  lit "abcdefghijklmnopqrstuvwxyz"
    ++ map ascii_of_N
         [224; 225; 226; 227; 228; 229; 230; 231; 232; 233; 234; 235; 236; 237;
          238; 239; 240; 241; 242; 243; 244; 245; 246; 248; 249; 250; 251; 252;
          253; 254]%N.

(** The character at the position of [c] in the second alphabet, or [c]
    itself when the first alphabet does not hold it. *)
Fixpoint letter_of (from to : str) (c : ascii) : ascii :=
  match from, to with
  | a :: from', b :: to' => if Ascii.eqb c a then b else letter_of from' to' c
  | _, _ => c
  end.

(** The lower-cased form of a text: every capital letter replaced by its
    small letter, every other character kept. *)
Definition lower_cased (s : str) : str :=
  map (letter_of capital_letters small_letters) s.

(** A prompt as the specification allows it: verbatim the research prompt of
    a category of the map, or the fixed sentence with the lower-cased form of
    a key concept and the lower-cased name of the category it belongs to. *)
Definition prompt_of_map (research_dict : dict details) (prompt : str) : Prop :=
  (exists k d, dict_get research_dict k = Some d /\ research_prompt d = Some prompt)
  \/ (exists k d l c,
        dict_get research_dict k = Some d /\ key_concepts d = Some l /\ In c l
        /\ prompt = lit "How can " ++ lower_cased c ++ lit " be applied in "
                      ++ lower_cased k
                      ++ lit " to improve solar farm efficiency?").

(** ** Sample networks *)

(** A network that answers every request with the status 300, which is no
    success, and a JSON body. *)
Definition status_300 : network :=
  fun _ => Ok (mkResponse 300 (lit "Multiple Choices") []
                 (Ok (JObj [(lit "choices", JArr [])]))).

(** ** The parser over the text operations of the library

    The parser searches and trims text through four operations of the
    library.  A [runtime] is one way these operations may behave; what the
    documentation of the library says about them is [conforming]. *)

Record runtime : Type := mkRuntime {
  (** [re.split(r'\*\*\d+\.\s+', text)] *)
  rt_re_split : str -> list str;
  (** [s.split(sep)], as [rt_split sep s] *)
  rt_split : str -> str -> list str;
  (** [s.strip()] and [s.strip('*')], by the class of characters removed *)
  rt_strip : (ascii -> bool) -> str -> str;
  (** [s.startswith(p)] *)
  rt_startswith : str -> str -> bool
}.

(** [re.split]: the text is cut at the occurrences of the pattern, found from
    left to right.  Each occurrence starts as far left as one can start and
    is as long as the pattern lets it be; what is behind it is cut in the
    same way. *)
Inductive cut_at_markers : str -> list str -> Prop :=
| cut_no_marker (text : str) :
    no_marker text -> cut_at_markers text [text]
| cut_marker (text before m rest : str) (pieces : list str) :
    text = before ++ m ++ rest ->
    marker m ->
    (forall b' m' r', marker m' -> text = b' ++ m' ++ r' ->
                      length before <= length b') ->
    (forall m' r', marker m' -> m ++ rest = m' ++ r' -> length m' <= length m) ->
    cut_at_markers rest pieces ->
    cut_at_markers text (before :: pieces).

(** [str.split]: the text is cut at the occurrences of the separator, found
    from left to right. *)
Inductive cut_at (sep : str) : str -> list str -> Prop :=
| cut_no_sep (s : str) :
    ~ occurs sep s -> cut_at sep s [s]
| cut_sep (s before rest : str) (pieces : list str) :
    s = before ++ sep ++ rest ->
    (forall b' r', s = b' ++ sep ++ r' -> length before <= length b') ->
    cut_at sep rest pieces ->
    cut_at sep s (before :: pieces).

(** [str.strip]: [t] is [s] without characters of the class at its two ends:
    what is removed is of the class, and [t] neither starts nor ends with a
    character of the class. *)
Definition stripped (f : ascii -> bool) (s t : str) : Prop :=
  exists l r,
    s = l ++ t ++ r
    /\ forallb f l = true /\ forallb f r = true
    /\ (forall c t', t = c :: t' -> f c = false)
    /\ (forall c t', t = t' ++ [c] -> f c = false).

Definition conforming (rt : runtime) : Prop :=
  (forall text, cut_at_markers text (rt_re_split rt text))
  /\ (forall sep s, sep <> [] -> cut_at sep s (rt_split rt sep s))
  /\ (forall f s, stripped f s (rt_strip rt f s))
  /\ (forall s p, rt_startswith rt s p = true <-> exists rest, s = p ++ rest).

Section ParserOn.

Variable rt : runtime.

(** [parse_research_categories] and its two loop bodies, with the text
    operations taken from the runtime. *)
Definition parse_line_on (d : details) (line : str) : py details :=
  if rt_startswith rt line (lit "* **Description:**") then
    v <- index (rt_split rt (lit "**Description:**") line) 1 ;;
    Ok (mkDetails (Some (rt_strip rt is_space v)) (research_prompt d) (key_concepts d))
  else if rt_startswith rt line (lit "* **Research Prompt:**") then
    v <- index (rt_split rt (lit "**Research Prompt:**") line) 1 ;;
    Ok (mkDetails (description d)
                  (Some (rt_strip rt is_star (rt_strip rt is_space v)))
                  (key_concepts d))
  else if rt_startswith rt line (lit "* **Key Concepts:**") then
    v <- index (rt_split rt (lit "**Key Concepts:**") line) 1 ;;
    Ok (mkDetails (description d) (research_prompt d)
                  (Some (map (rt_strip rt is_space)
                           (rt_split rt (lit ",") (rt_strip rt is_space v)))))
  else Ok d.

Definition parse_category_on (research_dict : dict details) (category : str)
  : py (dict details) :=
  let lines := rt_split rt newline (rt_strip rt is_space category) in
  name_line <- index lines 0 ;;
  let category_name := rt_strip rt is_star name_line in
  d <- for_each parse_line_on (tl lines) no_details ;;
  Ok (dict_set research_dict category_name d).

Definition parse_research_categories_on (text : str) : py (dict details) :=
  let categories := tl (rt_re_split rt text) in
  for_each parse_category_on categories [].

End ParserOn.

(** The operations as this file models them. *)
Definition python : runtime :=
  mkRuntime re_split_marker str_split strip_by startswith.

(** Another realisation of the same operations: the two ends of a string are
    trimmed in the other order, the right end first. *)
Definition strip_right_first (f : ascii -> bool) (s : str) : str :=
  lstrip_by f (rstrip_by f s).

Definition right_first : runtime :=
  mkRuntime re_split_marker str_split strip_right_first startswith.

(** * Properties *)

(** ** Lists, text and dictionaries *)

Lemma index_in {A} (l : list A) i a : index l i = Ok a -> In a l.
Proof.
  unfold index. destruct (nth_error l i) eqn:E; intros H; inversion H; subst.
  eapply nth_error_In; eauto.
Qed.

Lemma index_lt {A} (l : list A) i : i < length l -> exists a, index l i = Ok a.
Proof.
  intros H. unfold index. destruct (nth_error l i) eqn:E; eauto.
  apply nth_error_None in E. lia.
Qed.

Lemma str_eqb_eq a b : str_eqb a b = true <-> a = b.
Proof. unfold str_eqb. destruct (list_eq_dec ascii_dec a b); split; congruence. Qed.

Lemma str_eqb_refl a : str_eqb a a = true.
Proof. apply str_eqb_eq. reflexivity. Qed.

Lemma dict_get_keys {V} (d : dict V) k :
  In k (keys d) -> exists v, dict_get d k = Some v.
Proof.
  induction d as [|[k' v'] d IH]; simpl; [tauto|].
  intros [->|H].
  - rewrite str_eqb_refl. eauto.
  - destruct (str_eqb k' k); eauto.
Qed.

Lemma dict_get_some_keys {V} (d : dict V) k v :
  dict_get d k = Some v -> In k (keys d).
Proof.
  induction d as [|[k' v'] d IH]; simpl; [discriminate|].
  destruct (str_eqb k' k) eqn:E; [apply str_eqb_eq in E; auto | auto].
Qed.

Lemma str_eqb_neq a b : str_eqb a b = false <-> a <> b.
Proof. unfold str_eqb. destruct (list_eq_dec ascii_dec a b); split; congruence. Qed.

Lemma dict_get_set_same {V} (d : dict V) k v : dict_get (dict_set d k v) k = Some v.
Proof.
  induction d as [|[k' v'] d IH]; simpl.
  - rewrite str_eqb_refl. reflexivity.
  - destruct (str_eqb k' k) eqn:E; simpl; rewrite E; auto.
Qed.

Lemma dict_get_set_other {V} (d : dict V) k v k' :
  k <> k' -> dict_get (dict_set d k v) k' = dict_get d k'.
Proof.
  intros Hne. induction d as [|[k0 v0] d IH]; simpl.
  - apply str_eqb_neq in Hne. rewrite Hne. reflexivity.
  - destruct (str_eqb k0 k) eqn:E; simpl.
    + apply str_eqb_eq in E. subst k0.
      apply str_eqb_neq in Hne. rewrite Hne. reflexivity.
    + destruct (str_eqb k0 k'); auto.
Qed.

Lemma keys_set_present {V} (d : dict V) k v :
  In k (keys d) -> keys (dict_set d k v) = keys d.
Proof.
  induction d as [|[k' v'] d IH]; simpl; [tauto|].
  intros H. destruct (str_eqb k' k) eqn:E; simpl; [reflexivity|].
  f_equal. apply IH. destruct H as [H|H]; [|assumption].
  apply str_eqb_neq in E. congruence.
Qed.

Lemma keys_set_absent {V} (d : dict V) k v :
  ~ In k (keys d) -> keys (dict_set d k v) = keys d ++ [k].
Proof.
  induction d as [|[k' v'] d IH]; simpl; [reflexivity|].
  intros H. destruct (str_eqb k' k) eqn:E; simpl.
  - apply str_eqb_eq in E. tauto.
  - f_equal. apply IH. tauto.
Qed.

Lemma in_keys_dec {V} (d : dict V) k : {In k (keys d)} + {~ In k (keys d)}.
Proof. apply in_dec, (list_eq_dec ascii_dec). Qed.

Lemma keys_set_nodup {V} (d : dict V) k v :
  NoDup (keys d) -> NoDup (keys (dict_set d k v)).
Proof.
  intros H. destruct (in_keys_dec d k) as [Hin|Hout].
  - rewrite keys_set_present; assumption.
  - rewrite keys_set_absent by assumption.
    apply NoDup_app; auto.
    + repeat constructor. simpl. tauto.
    + intros x Hx [<-|[]]. tauto.
Qed.

Lemma keys_set_in {V} (d : dict V) k v : In k (keys (dict_set d k v)).
Proof.
  eapply dict_get_some_keys. apply dict_get_set_same.
Qed.

Lemma keys_set_keeps {V} (d : dict V) k v k' :
  In k' (keys d) -> In k' (keys (dict_set d k v)).
Proof.
  intros H. destruct (in_keys_dec d k) as [Hin|Hout].
  - rewrite keys_set_present; assumption.
  - rewrite keys_set_absent by assumption. apply in_or_app. auto.
Qed.

Lemma length_keys {V} (d : dict V) : length (keys d) = length d.
Proof. apply length_map. Qed.

Lemma length_set {V} (d : dict V) k v : length (dict_set d k v) <= S (length d).
Proof.
  rewrite <- !length_keys. destruct (in_keys_dec d k) as [Hin|Hout].
  - rewrite keys_set_present by assumption. lia.
  - rewrite keys_set_absent, length_app by assumption. simpl. lia.
Qed.

(** ** Splitting *)

Lemma strip_prefix_app p s rest :
  strip_prefix p s = Some rest <-> s = p ++ rest.
Proof.
  revert s. induction p as [|a p IH]; intros s; simpl.
  - split; congruence.
  - destruct s as [|b s]; [split; discriminate|].
    destruct (Ascii.eqb_spec a b) as [->|Hne].
    + rewrite IH. split; congruence.
    + split; [discriminate | congruence].
Qed.

Lemma startswith_app s p : startswith s p = true <-> exists rest, s = p ++ rest.
Proof.
  unfold startswith. destruct (strip_prefix p s) as [rest|] eqn:E.
  - apply strip_prefix_app in E. split; eauto.
  - split; [discriminate|]. intros [rest H].
    apply strip_prefix_app in H. congruence.
Qed.

Section SplittingFacts.

Variable matcher : str -> option str.

(** A match is never empty. *)
Hypothesis progress :
  forall s rest, matcher s = Some rest -> length rest < length s.

Lemma find_match_some s before rest :
  find_match matcher s = Some (before, rest) ->
  exists s', s = before ++ s' /\ matcher s' = Some rest.
Proof.
  revert before. induction s as [|c s IH]; intros before; simpl.
  - destruct (matcher []) eqn:E; [|discriminate].
    intros H. inversion H; subst. exists []. auto.
  - destruct (matcher (c :: s)) eqn:E.
    + intros H. inversion H; subst. exists (c :: s). auto.
    + destruct (find_match matcher s) as [[b r]|]; [|discriminate].
      intros H. inversion H; subst.
      destruct (IH b eq_refl) as (s' & -> & Hm). exists s'. auto.
Qed.

Lemma find_match_shorter s before rest :
  find_match matcher s = Some (before, rest) -> length rest < length s.
Proof.
  intros H. destruct (find_match_some s before rest H) as (s' & -> & Hm).
  apply progress in Hm. rewrite length_app. lia.
Qed.

Lemma split_fuel_enough fuel1 : forall fuel2 s,
  length s <= fuel1 -> length s <= fuel2 ->
  split_fuel matcher fuel1 s = split_fuel matcher fuel2 s.
Proof.
  induction fuel1 as [|fuel1 IH]; intros fuel2 s H1 H2.
  - destruct s; [|simpl in H1; lia].
    destruct fuel2; simpl; [reflexivity|].
    destruct (matcher []) eqn:E; [apply progress in E; simpl in E; lia | reflexivity].
  - destruct fuel2 as [|fuel2].
    + destruct s; [|simpl in H2; lia]. simpl.
      destruct (matcher []) eqn:E; [apply progress in E; simpl in E; lia | reflexivity].
    + simpl. destruct (find_match matcher s) as [[b r]|] eqn:E; [|reflexivity].
      apply find_match_shorter in E. f_equal. apply IH; lia.
Qed.

(** The split without its fuel: cut at the leftmost match, go on behind. *)
Lemma split_matches_unfold s :
  split_matches matcher s
  = match find_match matcher s with
    | Some (before, rest) => before :: split_matches matcher rest
    | None => [s]
    end.
Proof.
  unfold split_matches. destruct s as [|c s].
  - simpl. destruct (matcher []) eqn:E; [apply progress in E; simpl in E; lia | reflexivity].
  - cbn [length split_fuel].
    destruct (find_match matcher (c :: s)) as [[b r]|] eqn:E; [|reflexivity].
    apply find_match_shorter in E. f_equal. apply split_fuel_enough; simpl in *; lia.
Qed.

Lemma split_matches_nonempty s : split_matches matcher s <> [].
Proof.
  rewrite split_matches_unfold.
  destruct (find_match matcher s) as [[b r]|]; discriminate.
Qed.

(** Looking for a match behind a stretch that holds the start of none. *)
Lemma find_match_skip a : forall s,
  (forall i, i < length a -> matcher (skipn i a ++ s) = None) ->
  find_match matcher (a ++ s)
  = match find_match matcher s with
    | Some (before, rest) => Some (a ++ before, rest)
    | None => None
    end.
Proof.
  induction a as [|c a IH]; intros s H.
  - simpl. destruct (find_match matcher s) as [[b r]|]; reflexivity.
  - cbn [app find_match].
    pose proof (H 0 ltac:(simpl; lia)) as H0. cbn [skipn app] in H0. rewrite H0.
    rewrite IH.
    + destruct (find_match matcher s) as [[b r]|]; reflexivity.
    + intros i Hi. apply (H (S i)). simpl. lia.
Qed.

Lemma find_match_none s :
  (forall i, i <= length s -> matcher (skipn i s) = None) ->
  find_match matcher s = None.
Proof.
  induction s as [|c s IH]; intros H.
  - simpl. pose proof (H 0 ltac:(lia)) as H0. cbn [skipn] in H0. rewrite H0. reflexivity.
  - cbn [find_match].
    pose proof (H 0 ltac:(lia)) as H0. cbn [skipn] in H0. rewrite H0.
    rewrite IH; [reflexivity|].
    intros i Hi. apply (H (S i)). simpl. lia.
Qed.

Lemma find_match_here s rest :
  matcher s = Some rest -> find_match matcher s = Some ([], rest).
Proof.
  intros H. destruct s; simpl; rewrite H; reflexivity.
Qed.

End SplittingFacts.

(** ** The marker pattern *)

Lemma drop_while_app f a : forall s,
  drop_while f (a ++ s)
  = if forallb f a then drop_while f s else drop_while f a ++ s.
Proof.
  induction a as [|c a IH]; intros s; simpl; [reflexivity|].
  destruct (f c); simpl; [apply IH | reflexivity].
Qed.

Lemma drop_while_run f s :
  exists run, s = run ++ drop_while f s /\ forallb f run = true.
Proof.
  induction s as [|c s (run & IH & Hrun)]; simpl.
  - exists []. auto.
  - destruct (f c) eqn:E.
    + exists (c :: run). simpl. rewrite E, Hrun.
      split; [f_equal; exact IH | reflexivity].
    + exists []. auto.
Qed.

Lemma drop_while_stops f s :
  drop_while f (drop_while f s) = drop_while f s.
Proof.
  induction s as [|c s IH]; simpl; [reflexivity|].
  destruct (f c) eqn:E; [assumption|]. simpl. rewrite E. reflexivity.
Qed.

Lemma drop_while_all f s : forallb f s = true -> drop_while f s = [].
Proof.
  induction s as [|c s IH]; simpl; [reflexivity|].
  destruct (f c); simpl; [assumption | discriminate].
Qed.

Lemma drop_while_not_all f s : forallb f s = false -> drop_while f s <> [].
Proof.
  induction s as [|c s IH]; simpl; [discriminate|].
  destruct (f c); simpl; [assumption | discriminate].
Qed.

Lemma many1_run f s rest :
  many1 f s = Some rest ->
  exists run, s = run ++ rest /\ run <> [] /\ forallb f run = true.
Proof.
  unfold many1. destruct s as [|c s]; [discriminate|].
  destruct (f c) eqn:E; [|discriminate].
  intros H. inversion H; subst. clear H.
  destruct (drop_while_run f (c :: s)) as (run & Hs & Hrun).
  exists run. repeat split; auto.
  intros ->. simpl in Hs. rewrite E in Hs.
  assert (length (c :: s) <= length s).
  { rewrite Hs at 1. destruct (drop_while_run f s) as (r & Hr & _).
    rewrite Hr at 2. rewrite length_app. lia. }
  simpl in *. lia.
Qed.

Lemma many1_greedy f run s :
  run <> [] -> forallb f run = true ->
  many1 f (run ++ s) = Some (drop_while f s).
Proof.
  intros Hne Hrun. destruct run as [|c run]; [congruence|].
  unfold many1. cbn [app]. simpl in Hrun. apply andb_true_iff in Hrun as [Hc Hrun].
  rewrite Hc. f_equal. change (c :: run ++ s) with ((c :: run) ++ s).
  rewrite drop_while_app. simpl. rewrite Hc, Hrun. reflexivity.
Qed.

(** What the pattern matches is a marker. *)
Lemma match_marker_sound s rest :
  match_marker s = Some rest -> exists m, marker m /\ s = m ++ rest.
Proof.
  unfold match_marker, obind.
  destruct (strip_prefix (lit "**") s) as [s1|] eqn:E1; [|discriminate].
  destruct (many1 is_digit s1) as [s2|] eqn:E2; [|discriminate].
  destruct (strip_prefix (lit ".") s2) as [s3|] eqn:E3; [|discriminate].
  intros E4.
  apply strip_prefix_app in E1, E3.
  apply many1_run in E2 as (ds & -> & Hds & Hdigits).
  apply many1_run in E4 as (ws & -> & Hws & Hspaces).
  subst. exists (lit "**" ++ ds ++ lit "." ++ ws). split.
  - exists ds, ws. auto.
  - repeat rewrite <- app_assoc. reflexivity.
Qed.

(** A marker is matched, together with the blanks that follow it. *)
Lemma match_marker_complete m s :
  marker m -> match_marker (m ++ s) = Some (drop_while is_space s).
Proof.
  intros (ds & ws & -> & Hds & Hdigits & Hws & Hspaces).
  unfold match_marker. repeat rewrite <- app_assoc.
  cbn [lit list_ascii_of_string app strip_prefix Ascii.eqb Bool.eqb obind].
  rewrite many1_greedy by assumption.
  cbn [drop_while is_digit ascii_in N_of_ascii andb N.leb N.compare Pos.compare
       Pos.compare_cont strip_prefix Ascii.eqb Bool.eqb obind].
  apply many1_greedy; assumption.
Qed.

Lemma match_marker_progress s rest :
  match_marker s = Some rest -> length rest < length s.
Proof.
  intros H. apply match_marker_sound in H as (m & (ds & ws & -> & Hds & _) & ->).
  repeat rewrite length_app. simpl. lia.
Qed.

Lemma re_split_marker_unfold s :
  re_split_marker s
  = match find_match match_marker s with
    | Some (before, rest) => before :: re_split_marker rest
    | None => [s]
    end.
Proof. apply split_matches_unfold, match_marker_progress. Qed.

(** No marker in a text means no match at any of its positions. *)
Lemma no_marker_no_match s :
  no_marker s <-> forall i, match_marker (skipn i s) = None.
Proof.
  split.
  - intros H i. destruct (match_marker (skipn i s)) as [rest|] eqn:E; [|reflexivity].
    apply match_marker_sound in E as (m & Hm & E).
    exfalso. apply (H (firstn i s) m rest Hm).
    rewrite <- E. symmetry. apply firstn_skipn.
  - intros H before m behind Hm ->.
    specialize (H (length before)).
    rewrite skipn_app, skipn_all, Nat.sub_diag in H. simpl in H.
    rewrite (match_marker_complete m behind Hm) in H. discriminate.
Qed.

Lemma has_marker_false s : has_marker s = false -> no_marker s.
Proof.
  intros H. apply no_marker_no_match. intros i.
  destruct (Nat.le_gt_cases i (length s)) as [Hi|Hi].
  - unfold has_marker in H.
    destruct (match_marker (skipn i s)) eqn:E; [|reflexivity].
    exfalso. apply Bool.not_true_iff_false in H. apply H.
    apply existsb_exists. exists i. rewrite E. split; [|reflexivity].
    apply in_seq. lia.
  - rewrite skipn_all2 by lia. reflexivity.
Qed.

Lemma no_marker_suffix a s : no_marker (a ++ s) -> no_marker s.
Proof.
  intros H before m behind Hm ->. apply (H (a ++ before) m behind Hm).
  rewrite <- app_assoc. reflexivity.
Qed.

Lemma no_marker_lstrip s : no_marker s -> no_marker (lstrip_by is_space s).
Proof.
  intros H. unfold lstrip_by.
  destruct (drop_while_run is_space s) as (run & Hs & _).
  rewrite Hs in H. eapply no_marker_suffix; eauto.
Qed.

Lemma boundary_marker m s : marker m -> boundary (m ++ s).
Proof.
  intros (ds & ws & -> & _). right. eexists.
  repeat rewrite <- app_assoc. reflexivity.
Qed.

Lemma boundary_not_digit s : boundary s -> many1 is_digit s = None.
Proof. intros [->|[s' ->]]; reflexivity. Qed.

Lemma boundary_not_space s : boundary s -> many1 is_space s = None.
Proof. intros [->|[s' ->]]; reflexivity. Qed.

Lemma boundary_not_period s : boundary s -> strip_prefix (lit ".") s = None.
Proof. intros [->|[s' ->]]; reflexivity. Qed.

Lemma boundary_drop_digits s : boundary s -> drop_while is_digit s = s.
Proof. intros [->|[s' ->]]; reflexivity. Qed.

Lemma boundary_drop_spaces s : boundary s -> drop_while is_space s = s.
Proof. intros [->|[s' ->]]; reflexivity. Qed.

Lemma many1_some f s : many1 f s <> None -> many1 f s = Some (drop_while f s).
Proof.
  unfold many1. destruct s as [|c s]; [congruence|].
  destruct (f c); congruence.
Qed.

Lemma many1_app_left f p s :
  p <> [] -> many1 f (p ++ s) <> None -> many1 f p = Some (drop_while f p).
Proof.
  intros Hp H. apply many1_some. unfold many1 in *.
  destruct p as [|c p]; [congruence|]. cbn [app] in H.
  destruct (f c); congruence.
Qed.

(** The four steps of the pattern. *)
Lemma match_marker_steps s rest :
  match_marker s = Some rest <->
  exists s1 s2 s3,
    strip_prefix (lit "**") s = Some s1 /\ many1 is_digit s1 = Some s2
    /\ strip_prefix (lit ".") s2 = Some s3 /\ many1 is_space s3 = Some rest.
Proof.
  unfold match_marker, obind. split.
  - destruct (strip_prefix (lit "**") s) as [s1|] eqn:E1; [|discriminate].
    destruct (many1 is_digit s1) as [s2|] eqn:E2; [|discriminate].
    destruct (strip_prefix (lit ".") s2) as [s3|] eqn:E3; [|discriminate].
    intros H. exists s1, s2, s3. repeat split; auto.
  - intros (s1 & s2 & s3 & -> & -> & -> & ->). reflexivity.
Qed.

(** A match that starts inside a piece of text ends inside it: it cannot
    run over a boundary. *)
Lemma match_marker_inside p s :
  boundary s -> p <> [] ->
  match_marker (p ++ s) <> None -> match_marker p <> None.
Proof.
  intros Hs Hp H.
  destruct (match_marker (p ++ s)) as [rest|] eqn:E; [clear H | congruence].
  apply match_marker_steps in E as (s1 & s2 & s3 & E1 & E2 & E3 & E4).
  apply strip_prefix_app in E1. cbn [lit list_ascii_of_string app] in E1.
  destruct p as [|c1 [|c2 p]]; [congruence | |].
  - (* one character before the boundary *)
    exfalso. destruct Hs as [->|[s' ->]]; [discriminate|].
    cbn [lit list_ascii_of_string app] in E1. inversion E1; subst.
    discriminate E2.
  - cbn [app] in E1. inversion E1; subst. clear E1.
    destruct p as [|d p].
    { cbn [app] in E2. rewrite (boundary_not_digit s Hs) in E2. discriminate. }
    assert (Hd : many1 is_digit (d :: p) = Some (drop_while is_digit (d :: p))).
    { apply (many1_app_left is_digit (d :: p) s); congruence. }
    assert (Hs2 : s2 = drop_while is_digit ((d :: p) ++ s)).
    { rewrite many1_some in E2 by congruence. congruence. }
    clear E2. rewrite drop_while_app in Hs2.
    destruct (forallb is_digit (d :: p)) eqn:Hall.
    + (* digits up to the boundary: no period follows *)
      exfalso. rewrite (boundary_drop_digits s Hs) in Hs2. rewrite Hs2 in E3.
      rewrite (boundary_not_period s Hs) in E3. discriminate.
    + pose proof (drop_while_not_all is_digit (d :: p) Hall) as Hne.
      rewrite Hs2 in E3. clear Hs2. apply strip_prefix_app in E3.
      destruct (drop_while is_digit (d :: p)) as [|x p3] eqn:Edp; [congruence|].
      cbn [lit list_ascii_of_string app] in E3.
      injection E3 as Hx Hs3. subst x s3.
      destruct p3 as [|w p3].
      { cbn [app] in E4. rewrite (boundary_not_space s Hs) in E4. discriminate. }
      assert (Hw : many1 is_space (w :: p3) = Some (drop_while is_space (w :: p3))).
      { apply (many1_app_left is_space (w :: p3) s); congruence. }
      assert (Hm : match_marker ("*"%char :: "*"%char :: d :: p)
                   = Some (drop_while is_space (w :: p3))).
      { apply match_marker_steps. exists (d :: p), ("."%char :: w :: p3), (w :: p3).
        repeat split; auto. }
      rewrite Hm. discriminate.
Qed.

(** The first match in a text that starts with a marker-free stretch, then
    a marker: the stretch is cut off, and the marker takes the blanks behind
    it. *)
Lemma find_match_marker before m s :
  no_marker before -> marker m ->
  find_match match_marker (before ++ m ++ s)
  = Some (before, drop_while is_space s).
Proof.
  intros Hbefore Hm.
  rewrite find_match_skip.
  - rewrite (find_match_here match_marker (m ++ s) (drop_while is_space s)).
    + rewrite app_nil_r. reflexivity.
    + apply match_marker_complete, Hm.
  - intros i Hi.
    destruct (match_marker (skipn i before ++ m ++ s)) eqn:E; [|reflexivity].
    exfalso.
    apply (match_marker_inside (skipn i before) (m ++ s)).
    + apply boundary_marker, Hm.
    + intros Hnil. apply (f_equal (@length ascii)) in Hnil.
      rewrite length_skipn in Hnil. simpl in Hnil. lia.
    + congruence.
    + apply no_marker_no_match, Hbefore.
Qed.

Lemma find_match_no_marker s : no_marker s -> find_match match_marker s = None.
Proof.
  intros H. apply find_match_none. intros i _. apply no_marker_no_match, H.
Qed.

Lemma blocks_text_boundary blocks :
  Forall (fun mb => marker (fst mb)) blocks -> boundary (blocks_text blocks).
Proof.
  intros H. destruct H as [|[m b] blocks Hm _]; [left; reflexivity|].
  unfold blocks_text. cbn [map concat fst snd]. rewrite <- app_assoc.
  apply boundary_marker, Hm.
Qed.

(** The split of a text made of blocks: the text before the first marker,
    then each block without its marker and without the blanks that the
    marker takes along. *)
Lemma re_split_marker_blocks blocks : forall before,
  no_marker before ->
  Forall (fun mb => marker (fst mb)) blocks ->
  Forall (fun mb => no_marker (snd mb)) blocks ->
  re_split_marker (before ++ blocks_text blocks)
  = before :: map (fun mb => lstrip_by is_space (snd mb)) blocks.
Proof.
  induction blocks as [|[m b] blocks IH]; intros before Hbefore Hms Hbs.
  - unfold blocks_text. cbn. rewrite app_nil_r.
    rewrite re_split_marker_unfold, find_match_no_marker by assumption.
    reflexivity.
  - inversion Hms as [|? ? Hm Hms']. inversion Hbs as [|? ? Hb Hbs']. subst.
    cbn [fst snd] in Hm, Hb.
    unfold blocks_text. cbn [map concat fst snd]. fold (blocks_text blocks).
    rewrite <- app_assoc.
    rewrite re_split_marker_unfold, find_match_marker by assumption.
    cbn [map snd]. f_equal.
    rewrite drop_while_app.
    destruct (forallb is_space b) eqn:Hall.
    + rewrite (boundary_drop_spaces _ (blocks_text_boundary blocks Hms')).
      unfold lstrip_by. rewrite (drop_while_all is_space b Hall).
      apply (IH [] ); auto.
      intros p m' q Hm' Heq. destruct p; [|discriminate].
      destruct Hm' as (ds & ws & -> & _). discriminate.
    + apply IH; auto. apply no_marker_lstrip, Hb.
Qed.

(** ** The category parser *)

Lemma strip_prefix_progress sep s rest :
  sep <> [] -> strip_prefix sep s = Some rest -> length rest < length s.
Proof.
  intros Hsep H. apply strip_prefix_app in H. subst.
  rewrite length_app. destruct sep; [congruence | simpl; lia].
Qed.

Lemma str_split_unfold sep s :
  sep <> [] ->
  str_split sep s
  = match find_match (strip_prefix sep) s with
    | Some (before, rest) => before :: str_split sep rest
    | None => [s]
    end.
Proof.
  intros Hsep. apply split_matches_unfold.
  intros s0 rest. apply strip_prefix_progress, Hsep.
Qed.

Lemma str_split_nonempty sep s : sep <> [] -> str_split sep s <> [].
Proof.
  intros Hsep. apply split_matches_nonempty.
  intros s0 rest. apply strip_prefix_progress, Hsep.
Qed.

(** A text without the separator is one piece. *)
Lemma str_split_none sep s : sep <> [] -> ~ occurs sep s -> str_split sep s = [s].
Proof.
  intros Hsep H. rewrite str_split_unfold by assumption.
  rewrite find_match_none; [reflexivity|].
  intros i _. destruct (strip_prefix sep (skipn i s)) as [rest|] eqn:E; [|reflexivity].
  exfalso. apply H. exists (firstn i s), rest.
  apply strip_prefix_app in E. rewrite <- E. symmetry. apply firstn_skipn.
Qed.

(** The split of a line behind one of the three bullets. *)
Lemma str_split_description rest :
  str_split (lit "**Description:**") (lit "* **Description:**" ++ rest)
  = lit "* " :: str_split (lit "**Description:**") rest.
Proof.
  rewrite str_split_unfold by discriminate.
  replace (find_match (strip_prefix (lit "**Description:**"))
             (lit "* **Description:**" ++ rest))
    with (Some (lit "* ", rest)); [reflexivity|].
  cbn. reflexivity.
Qed.

Lemma str_split_research_prompt rest :
  str_split (lit "**Research Prompt:**") (lit "* **Research Prompt:**" ++ rest)
  = lit "* " :: str_split (lit "**Research Prompt:**") rest.
Proof.
  rewrite str_split_unfold by discriminate.
  replace (find_match (strip_prefix (lit "**Research Prompt:**"))
             (lit "* **Research Prompt:**" ++ rest))
    with (Some (lit "* ", rest)); [reflexivity|].
  cbn. reflexivity.
Qed.

Lemma str_split_key_concepts rest :
  str_split (lit "**Key Concepts:**") (lit "* **Key Concepts:**" ++ rest)
  = lit "* " :: str_split (lit "**Key Concepts:**") rest.
Proof.
  rewrite str_split_unfold by discriminate.
  replace (find_match (strip_prefix (lit "**Key Concepts:**"))
             (lit "* **Key Concepts:**" ++ rest))
    with (Some (lit "* ", rest)); [reflexivity|].
  cbn. reflexivity.
Qed.

Lemma index_second {A} (a : A) (l : list A) (default : A) :
  l <> [] -> index (a :: l) 1 = Ok (nth 1 (a :: l) default).
Proof. destruct l; [congruence | reflexivity]. Qed.

(** A line never makes [parse_line] raise: behind a bullet the label is
    there to split on. *)
Lemma parse_line_read d line : parse_line d line = Ok (read_line d line).
Proof.
  unfold parse_line, read_line, piece.
  destruct (startswith line (lit "* **Description:**")) eqn:E1.
  { apply startswith_app in E1 as [rest ->]. rewrite str_split_description.
    rewrite (index_second (A:=str) _ _ []) by (apply str_split_nonempty; discriminate).
    reflexivity. }
  destruct (startswith line (lit "* **Research Prompt:**")) eqn:E2.
  { apply startswith_app in E2 as [rest ->]. rewrite str_split_research_prompt.
    rewrite (index_second (A:=str) _ _ []) by (apply str_split_nonempty; discriminate).
    reflexivity. }
  destruct (startswith line (lit "* **Key Concepts:**")) eqn:E3.
  { apply startswith_app in E3 as [rest ->]. rewrite str_split_key_concepts.
    rewrite (index_second (A:=str) _ _ []) by (apply str_split_nonempty; discriminate).
    reflexivity. }
  reflexivity.
Qed.

(** A loop whose body never raises is a fold. *)
Lemma for_each_fold {A S} (body : S -> A -> py S) (f : S -> A -> S) :
  (forall s a, body s a = Ok (f s a)) ->
  forall l s, for_each body l s = Ok (fold_left f l s).
Proof.
  intros H l. induction l as [|a l IH]; intros s; simpl; [reflexivity|].
  rewrite H. cbn [bind]. apply IH.
Qed.

Lemma parse_category_read research_dict category :
  parse_category research_dict category
  = Ok (add_category research_dict category).
Proof.
  unfold parse_category, add_category, category_name, category_details, category_lines.
  pose proof (str_split_nonempty newline (strip category)) as Hne.
  destruct (str_split newline (strip category)) as [|name_line body].
  - exfalso. apply Hne; [discriminate | reflexivity].
  - cbn [index nth_error bind tl hd].
    rewrite (for_each_fold parse_line read_line parse_line_read). reflexivity.
Qed.

(** The parser as a fold over the category texts. *)
Lemma parse_research_categories_read text :
  parse_research_categories text
  = Ok (fold_left add_category (tl (re_split_marker text)) []).
Proof.
  unfold parse_research_categories.
  apply for_each_fold. apply parse_category_read.
Qed.

(** C7: a text that holds no marker is parsed to the empty map, and nothing
    is raised. *)
Theorem parse_research_categories_no_marker (text : str) :
  no_marker text -> parse_research_categories text = Ok [].
Proof.
  intros H. unfold parse_research_categories.
  rewrite re_split_marker_unfold, find_match_no_marker by assumption.
  reflexivity.
Qed.

Lemma parse_research_categories_no_marker_witness :
  parse_research_categories (lit "Here are **three** ideas: 1. drones, **2.robots") = Ok [].
Proof.
  apply parse_research_categories_no_marker.
  apply has_marker_false. vm_compute. reflexivity.
Defined.

(** *** The loop over the categories *)

Lemma fold_add_length categories : forall d,
  length (fold_left add_category categories d) <= length d + length categories.
Proof.
  induction categories as [|c categories IH]; intros d; simpl; [lia|].
  specialize (IH (add_category d c)).
  assert (length (add_category d c) <= S (length d)) by apply length_set.
  lia.
Qed.

Lemma fold_add_keeps categories : forall d k,
  In k (keys d) -> In k (keys (fold_left add_category categories d)).
Proof.
  induction categories as [|c categories IH]; intros d k H; simpl; [assumption|].
  apply IH. apply keys_set_keeps, H.
Qed.

Lemma fold_add_nodup categories : forall d,
  NoDup (keys d) -> NoDup (keys (fold_left add_category categories d)).
Proof.
  induction categories as [|c categories IH]; intros d H; simpl; [assumption|].
  apply IH. apply keys_set_nodup, H.
Qed.

(** Categories with other names leave the entry of [k] as it is. *)
Lemma fold_add_other categories k : forall d,
  (forall c, In c categories -> category_name c <> k) ->
  dict_get (fold_left add_category categories d) k = dict_get d k.
Proof.
  induction categories as [|c categories IH]; intros d H; simpl; [reflexivity|].
  rewrite IH by (intros c' Hc'; apply H; simpl; auto).
  apply dict_get_set_other. apply H. simpl. auto.
Qed.

(** A category whose name is already a key adds no key. *)
Lemma add_category_present d c :
  In (category_name c) (keys d) -> length (add_category d c) = length d.
Proof.
  intros H. rewrite <- !length_keys. unfold add_category.
  rewrite keys_set_present by assumption. reflexivity.
Qed.

Lemma fold_add_duplicate before c1 between c2 behind :
  category_name c1 = category_name c2 ->
  length (fold_left add_category (before ++ c1 :: between ++ c2 :: behind) [])
  < length (before ++ c1 :: between ++ c2 :: behind).
Proof.
  intros Hname.
  rewrite fold_left_app. cbn [fold_left].
  rewrite fold_left_app. cbn [fold_left].
  set (d0 := fold_left add_category before []).
  set (d1 := fold_left add_category between (add_category d0 c1)).
  pose proof (fold_add_length behind (add_category d1 c2)) as H3.
  assert (H2 : length (add_category d1 c2) = length d1).
  { apply add_category_present. rewrite <- Hname. apply fold_add_keeps.
    unfold add_category. apply keys_set_in. }
  pose proof (fold_add_length between (add_category d0 c1)) as H1. fold d1 in H1.
  pose proof (length_set d0 (category_name c1) (category_details c1)) as H0.
  fold (add_category d0 c1) in H0.
  pose proof (fold_add_length before []) as Hb. fold d0 in Hb. simpl in Hb.
  rewrite !length_app. cbn [length]. rewrite !length_app. cbn [length]. lia.
Qed.


(** ** Categories with the same name *)

Lemma parse_category_alone category k v :
  parse_category [] category = Ok [(k, v)] <->
  category_name category = k /\ category_details category = v.
Proof.
  rewrite parse_category_read. unfold add_category. cbn [dict_set]. split.
  - intros H. inversion H. auto.
  - intros [-> ->]. reflexivity.
Qed.

(** C10: when two blocks of the text give the same category name, the map
    holds under that name the record of the last such block only, its keys
    are all different, and it has fewer keys than the text has blocks. *)
Theorem parse_research_categories_duplicate_names
  (text : str) (before : list str) (c1 : str) (between : list str) (c2 : str)
  (behind : list str) (k : str) (v1 v2 : details) :
  tl (re_split_marker text) = before ++ c1 :: between ++ c2 :: behind ->
  parse_category [] c1 = Ok [(k, v1)] ->
  parse_category [] c2 = Ok [(k, v2)] ->
  (forall c v, In c behind -> parse_category [] c <> Ok [(k, v)]) ->
  exists d,
    parse_research_categories text = Ok d
    /\ dict_get d k = Some v2
    /\ NoDup (keys d)
    /\ length (keys d) < length (tl (re_split_marker text)).
Proof.
  intros Hblocks H1 H2 Hlast.
  apply parse_category_alone in H1 as [Hn1 _], H2 as [Hn2 Hv2].
  rewrite parse_research_categories_read, Hblocks.
  eexists. split; [reflexivity|]. split; [|split].
  - replace (before ++ c1 :: between ++ c2 :: behind)
      with ((before ++ c1 :: between) ++ c2 :: behind)
      by (rewrite <- app_assoc; reflexivity).
    rewrite fold_left_app. cbn [fold_left].
    rewrite fold_add_other.
    + unfold add_category. rewrite Hn2, Hv2. apply dict_get_set_same.
    + intros c Hc Hname. apply (Hlast c (category_details c) Hc).
      apply parse_category_alone. auto.
  - apply fold_add_nodup. constructor.
  - rewrite length_keys. apply fold_add_duplicate. congruence.
Qed.


Lemma parse_research_categories_duplicate_names_witness :
  exists d,
    parse_research_categories twice_drones = Ok d
    /\ dict_get d (lit "Drones")
       = Some (mkDetails None (Some (lit "third")) None)
    /\ NoDup (keys d)
    /\ length (keys d) < length (tl (re_split_marker twice_drones)).
Proof.
  apply (parse_research_categories_duplicate_names twice_drones
           [] (lit "Drones**
* **Description:** first
")
           [lit "Robots**
* **Description:** second
"]
           (lit "Drones**
* **Research Prompt:** third
")
           [] (lit "Drones")
           (mkDetails (Some (lit "first")) None None)
           (mkDetails None (Some (lit "third")) None)).
  - vm_compute. reflexivity.
  - vm_compute. reflexivity.
  - vm_compute. reflexivity.
  - intros c v [].
Defined.

(** What the parser returns on that text: two keys for three blocks, and
    the first record of Drones is gone. *)
Example twice_drones_parsed :
  parse_research_categories twice_drones
  = Ok [ (lit "Drones", mkDetails None (Some (lit "third")) None);
         (lit "Robots", mkDetails (Some (lit "second")) None None) ].
Proof. vm_compute. reflexivity. Qed.

(** ** Well-formed blocks *)

Lemma strip_lstrip s : strip (lstrip_by is_space s) = strip s.
Proof.
  unfold strip, strip_by, lstrip_by. rewrite drop_while_stops. reflexivity.
Qed.

Lemma contains_false sep s : contains sep s = false -> ~ occurs sep s.
Proof.
  intros H (before & behind & ->).
  apply Bool.not_true_iff_false in H. apply H.
  apply existsb_exists. exists (length before). split.
  - apply in_seq. rewrite length_app. lia.
  - rewrite skipn_app, skipn_all, Nat.sub_diag. simpl.
    destruct (strip_prefix sep (sep ++ behind)) eqn:E; [reflexivity|].
    assert (E' : strip_prefix sep (sep ++ behind) = Some behind)
      by (apply strip_prefix_app; reflexivity).
    congruence.
Qed.

Section Field.

(** A field of the record that the lines starting with [label] set, and
    that no other line touches. *)
Variable X : Type.
Variable label : str.
Variable get : details -> option X.
Variable value : str -> X.

Hypothesis sets : forall d line,
  startswith line label = true -> get (read_line d line) = Some (value line).
Hypothesis keeps : forall d line,
  startswith line label = false -> get (read_line d line) = get d.

Lemma fold_read_line_field text body : forall d,
  (forall line, In line body -> startswith line label = true -> line = label ++ text) ->
  In (label ++ text) body \/ get d = Some (value (label ++ text)) ->
  get (fold_left read_line body d) = Some (value (label ++ text)).
Proof.
  induction body as [|line body IH]; intros d Honly Hset.
  - destruct Hset as [[]|Hset]. exact Hset.
  - cbn [fold_left]. apply IH.
    + intros l Hl. apply Honly. simpl. auto.
    + destruct (startswith line label) eqn:E.
      * right. rewrite (sets d line E).
        rewrite (Honly line (or_introl eq_refl) E). reflexivity.
      * rewrite (keeps d line E).
        destruct Hset as [[Hl|Hl]|Hset]; auto.
        exfalso. subst line.
        assert (E' : startswith (label ++ text) label = true)
          by (apply startswith_app; eauto).
        congruence.
Qed.

Lemma one_line_field text body :
  one_line label body text ->
  get (fold_left read_line body no_details) = Some (value (label ++ text)).
Proof.
  intros [Hin Honly]. apply fold_read_line_field; auto.
Qed.

End Field.

(** The three bullets exclude each other. *)
Lemma bullets_differ line :
  (startswith line (lit "* **Description:**") = true ->
   startswith line (lit "* **Research Prompt:**") = false
   /\ startswith line (lit "* **Key Concepts:**") = false)
  /\ (startswith line (lit "* **Research Prompt:**") = true ->
      startswith line (lit "* **Description:**") = false
      /\ startswith line (lit "* **Key Concepts:**") = false)
  /\ (startswith line (lit "* **Key Concepts:**") = true ->
      startswith line (lit "* **Description:**") = false
      /\ startswith line (lit "* **Research Prompt:**") = false).
Proof.
  split; [|split]; intros H; apply startswith_app in H as [rest ->];
    split; reflexivity.
Qed.

Lemma description_line body text :
  one_line (lit "* **Description:**") body text ->
  description (fold_left read_line body no_details)
  = Some (strip (piece (lit "**Description:**") (lit "* **Description:**" ++ text))).
Proof.
  apply (one_line_field _ (lit "* **Description:**") description
           (fun line => strip (piece (lit "**Description:**") line))).
  - intros d line H. unfold read_line. rewrite H. reflexivity.
  - intros d line H. unfold read_line. rewrite H.
    destruct (startswith line (lit "* **Research Prompt:**")); [reflexivity|].
    destruct (startswith line (lit "* **Key Concepts:**")); reflexivity.
Qed.

Lemma research_prompt_line body text :
  one_line (lit "* **Research Prompt:**") body text ->
  research_prompt (fold_left read_line body no_details)
  = Some (strip_stars (strip (piece (lit "**Research Prompt:**")
                                (lit "* **Research Prompt:**" ++ text)))).
Proof.
  apply (one_line_field _ (lit "* **Research Prompt:**") research_prompt
           (fun line => strip_stars (strip (piece (lit "**Research Prompt:**") line)))).
  - intros d line H. unfold read_line.
    destruct (bullets_differ line) as (_ & Hd & _). destruct (Hd H) as [-> _].
    rewrite H. reflexivity.
  - intros d line H. unfold read_line. rewrite H.
    destruct (startswith line (lit "* **Description:**")); [reflexivity|].
    destruct (startswith line (lit "* **Key Concepts:**")); reflexivity.
Qed.

Lemma key_concepts_line body text :
  one_line (lit "* **Key Concepts:**") body text ->
  key_concepts (fold_left read_line body no_details)
  = Some (map strip (str_split (lit ",")
            (strip (piece (lit "**Key Concepts:**") (lit "* **Key Concepts:**" ++ text))))).
Proof.
  apply (one_line_field _ (lit "* **Key Concepts:**") key_concepts
           (fun line => map strip (str_split (lit ",")
                          (strip (piece (lit "**Key Concepts:**") line))))).
  - intros d line H. unfold read_line.
    destruct (bullets_differ line) as (_ & _ & Hd). destruct (Hd H) as [-> ->].
    rewrite H. reflexivity.
  - intros d line H. unfold read_line. rewrite H.
    destruct (startswith line (lit "* **Description:**")); [reflexivity|].
    destruct (startswith line (lit "* **Research Prompt:**")); reflexivity.
Qed.

(** Where the label does not come a second time, the piece behind it is the
    rest of the line. *)
Lemma piece_key_concepts text :
  ~ occurs (lit "**Key Concepts:**") text ->
  piece (lit "**Key Concepts:**") (lit "* **Key Concepts:**" ++ text) = text.
Proof.
  intros H. unfold piece. rewrite str_split_key_concepts.
  rewrite str_split_none by (assumption || discriminate). reflexivity.
Qed.

(** What the parser reads from a well-formed block. *)
Lemma well_formed_block_read b name concepts :
  well_formed_block b name concepts ->
  ~ occurs (lit "**Key Concepts:**") concepts ->
  category_name (lstrip_by is_space b) = name
  /\ full_record (category_details (lstrip_by is_space b)) concepts.
Proof.
  intros (name_line & body & dtext & ptext & Hlines & -> & Hd & Hp & Hc) Honce.
  unfold category_name, category_details, category_lines.
  rewrite strip_lstrip, Hlines. cbn [hd tl]. split; [reflexivity|].
  pose proof (description_line body dtext Hd) as H1.
  pose proof (research_prompt_line body ptext Hp) as H2.
  pose proof (key_concepts_line body concepts Hc) as H3.
  rewrite (piece_key_concepts concepts Honce) in H3.
  destruct (fold_left read_line body no_details) as [dv pv cv].
  cbn [description research_prompt key_concepts] in H1, H2, H3. subst.
  eexists _, _. reflexivity.
Qed.

(** A text of three blocks is split into its three blocks. *)
Lemma re_split_marker_three before m1 b1 m2 b2 m3 b3 :
  no_marker before ->
  marker m1 -> no_marker b1 ->
  marker m2 -> no_marker b2 ->
  marker m3 -> no_marker b3 ->
  tl (re_split_marker (before ++ m1 ++ b1 ++ m2 ++ b2 ++ m3 ++ b3))
  = [lstrip_by is_space b1; lstrip_by is_space b2; lstrip_by is_space b3].
Proof.
  intros H0 Hm1 Hb1 Hm2 Hb2 Hm3 Hb3.
  replace (m1 ++ b1 ++ m2 ++ b2 ++ m3 ++ b3)
    with (blocks_text [(m1, b1); (m2, b2); (m3, b3)]).
  - rewrite re_split_marker_blocks; auto.
  - unfold blocks_text. cbn [map concat fst snd].
    rewrite app_nil_r. repeat rewrite <- app_assoc. reflexivity.
Qed.

(** C2, amended: a text of exactly three blocks, each introduced by a marker
    and well formed, whose three category names differ from each other and
    whose Key Concepts lines hold the label once, is parsed to a map with
    exactly three keys, the names in the order of the text; every record has
    all three fields, and its key concepts are the text after the label,
    split on commas, each element trimmed. *)
Theorem parse_research_categories_three_blocks
  (before m1 b1 m2 b2 m3 b3 n1 n2 n3 c1 c2 c3 : str) :
  no_marker before ->
  block m1 b1 n1 c1 -> block m2 b2 n2 c2 -> block m3 b3 n3 c3 ->
  n1 <> n2 -> n1 <> n3 -> n2 <> n3 ->
  ~ occurs (lit "**Key Concepts:**") c1 ->
  ~ occurs (lit "**Key Concepts:**") c2 ->
  ~ occurs (lit "**Key Concepts:**") c3 ->
  exists r1 r2 r3,
    parse_research_categories (before ++ m1 ++ b1 ++ m2 ++ b2 ++ m3 ++ b3)
    = Ok [(n1, r1); (n2, r2); (n3, r3)]
    /\ full_record r1 c1 /\ full_record r2 c2 /\ full_record r3 c3.
Proof.
  intros H0 (Hm1 & Hb1 & Hw1) (Hm2 & Hb2 & Hw2) (Hm3 & Hb3 & Hw3)
    H12 H13 H23 Ho1 Ho2 Ho3.
  rewrite parse_research_categories_read.
  rewrite re_split_marker_three by assumption.
  destruct (well_formed_block_read b1 n1 c1 Hw1 Ho1) as [E1 Hr1].
  destruct (well_formed_block_read b2 n2 c2 Hw2 Ho2) as [E2 Hr2].
  destruct (well_formed_block_read b3 n3 c3 Hw3 Ho3) as [E3 Hr3].
  cbn [fold_left]. unfold add_category. rewrite E1, E2, E3. cbn [dict_set].
  apply str_eqb_neq in H12, H13, H23. rewrite H12. cbn [dict_set].
  rewrite H13. cbn [dict_set]. rewrite H23. cbn [dict_set].
  eexists _, _, _. split; [reflexivity|]. auto.
Qed.


(** Closed instances of the vocabulary, by evaluation. *)
Ltac closed_marker_with ds :=
  solve [ exists (lit ds), (lit " "); repeat split; (reflexivity || discriminate) ].

Ltac closed_marker :=
  first [ closed_marker_with "1"%string | closed_marker_with "2"%string
        | closed_marker_with "3"%string ].

Ltac closed_no_marker := apply has_marker_false; vm_compute; reflexivity.

Ltac closed_one_line :=
  split;
  [ cbv; repeat first [ left; reflexivity | right ]
  | let line := fresh "line" in
    let Hin := fresh "Hin" in
    let Hs := fresh "Hs" in
    intros line Hin Hs; cbn [In] in Hin;
    repeat (destruct Hin as [Hin|Hin];
            [ subst line; first [ reflexivity | vm_compute in Hs; discriminate Hs ] | ]);
    destruct Hin ].

Ltac closed_block :=
  split; [closed_marker | split; [closed_no_marker |]];
  eexists _, _, _, _;
  split; [vm_compute; reflexivity |];
  split; [vm_compute; reflexivity |];
  split; [closed_one_line | split; closed_one_line].

Lemma drones_block_ok :
  block (lit "**1. ") drones_block (lit "Drones") (lit " A, B,C").
Proof. closed_block. Qed.

Lemma robots_block_ok :
  block (lit "**2. ") robots_block (lit "Robots") (lit " Cleaning ,Brushes").
Proof. closed_block. Qed.

Lemma sensors_block_ok :
  block (lit "**3. ") sensors_block (lit "Sensors") (lit " IoT").
Proof. closed_block. Qed.


Lemma parse_research_categories_three_blocks_witness :
  exists r1 r2 r3,
    parse_research_categories
      (intro_text ++ lit "**1. " ++ drones_block ++ lit "**2. " ++ robots_block
         ++ lit "**3. " ++ sensors_block)
    = Ok [(lit "Drones", r1); (lit "Robots", r2); (lit "Sensors", r3)]
    /\ full_record r1 (lit " A, B,C")
    /\ full_record r2 (lit " Cleaning ,Brushes")
    /\ full_record r3 (lit " IoT").
Proof.
  apply parse_research_categories_three_blocks.
  - closed_no_marker.
  - exact drones_block_ok.
  - exact robots_block_ok.
  - exact sensors_block_ok.
  - discriminate.
  - discriminate.
  - discriminate.
  - apply contains_false. vm_compute. reflexivity.
  - apply contains_false. vm_compute. reflexivity.
  - apply contains_false. vm_compute. reflexivity.
Defined.

(** What the parser returns on that text; [A, B,C] gives the three key
    concepts A, B and C. *)
Example three_blocks_text_parsed :
  parse_research_categories three_blocks_text
  = Ok [ (lit "Drones",
          mkDetails (Some (lit "Using drones.")) (Some (lit "How do drones help?"))
                    (Some [lit "A"; lit "B"; lit "C"]));
         (lit "Robots",
          mkDetails (Some (lit "Using robots.")) (Some (lit "How do robots help?"))
                    (Some [lit "Cleaning"; lit "Brushes"]));
         (lit "Sensors",
          mkDetails (Some (lit "Using sensors.")) (Some (lit "How do sensors help?"))
                    (Some [lit "IoT"])) ].
Proof. vm_compute. reflexivity. Qed.


(** The claim C2 at two concrete inputs.  Three well-formed blocks with one
    and the same category name give a map with one key, not three.  And a
    Key Concepts line that holds its label twice gives the text between the
    two labels and not the text after the label: [A] and the empty text,
    where the text after the label, split on commas and trimmed, is [A] and
    [**Key Concepts:** B]. *)
Lemma same_name_blocks_one_key :
  (no_marker intro_text
   /\ block (lit "**1. ") drones_block (lit "Drones") (lit " A, B,C")
   /\ block (lit "**2. ") drones_block (lit "Drones") (lit " A, B,C")
   /\ block (lit "**3. ") drones_block (lit "Drones") (lit " A, B,C")
   /\ exists d,
        parse_research_categories
          (intro_text ++ lit "**1. " ++ drones_block ++ lit "**2. " ++ drones_block
             ++ lit "**3. " ++ drones_block) = Ok d
        /\ length (keys d) = 1)
  /\ (block (lit "**1. ") lidar_block (lit "Lidar") (lit " A, **Key Concepts:** B")
      /\ block (lit "**2. ") robots_block (lit "Robots") (lit " Cleaning ,Brushes")
      /\ block (lit "**3. ") sensors_block (lit "Sensors") (lit " IoT")
      /\ exists r1 r2 r3,
           parse_research_categories
             (intro_text ++ lit "**1. " ++ lidar_block ++ lit "**2. " ++ robots_block
                ++ lit "**3. " ++ sensors_block)
           = Ok [(lit "Lidar", r1); (lit "Robots", r2); (lit "Sensors", r3)]
           /\ key_concepts r1 = Some [lit "A"; lit ""]
           /\ map strip (str_split (lit ",") (strip (lit " A, **Key Concepts:** B")))
              = [lit "A"; lit "**Key Concepts:** B"]
           /\ ~ full_record r1 (lit " A, **Key Concepts:** B")).
Proof.
  split.
  - split; [closed_no_marker|].
    split; [exact drones_block_ok|].
    split; [closed_block|].
    split; [closed_block|].
    eexists. split; [vm_compute; reflexivity | reflexivity].
  - split; [closed_block|].
    split; [exact robots_block_ok|].
    split; [exact sensors_block_ok|].
    eexists _, _, _. split; [vm_compute; reflexivity|].
    split; [reflexivity|]. split; [vm_compute; reflexivity|].
    intros (d & p & H). vm_compute in H. discriminate H.
Qed.

(** ** The prompt sampler *)

(** A choice from a sequence that is not empty returns one of its elements
    and moves the random source by one draw. *)
Lemma random_choice_ok {A} (seq : list A) g :
  seq <> [] -> exists a, random_choice seq g = Ok (a, next g) /\ In a seq.
Proof.
  intros H. destruct seq as [|x seq]; [congruence|].
  unfold random_choice.
  destruct (index_lt (x :: seq) (g 0 mod length (x :: seq))) as [a Ha].
  - apply Nat.mod_upper_bound. simpl. lia.
  - exists a. rewrite Ha. split; [reflexivity | eapply index_in; eauto].
Qed.

Section CompleteMap.

Variable research_dict : dict details.
Hypothesis nonempty : research_dict <> [].
Hypothesis all_complete :
  forall k d, dict_get research_dict k = Some d -> complete d.

(** On a map of complete records a turn never raises, whatever is drawn. *)
Lemma sample_prompt_ok g :
  exists prompt g',
    sample_prompt research_dict g = Ok (prompt, g')
    /\ sampled_from research_dict prompt.
Proof.
  unfold sample_prompt.
  destruct (random_choice_ok (keys research_dict) g) as (k & -> & Hk).
  { unfold keys. destruct research_dict; [congruence | discriminate]. }
  cbn [bind].
  destruct (dict_get_keys _ _ Hk) as [d Hd].
  unfold subscript. rewrite Hd. cbn [bind].
  destruct (all_complete k d Hd) as (p & l & Hp & Hl & Hne).
  destruct (random_choice_ok [true; false] (next g)) as (coin & -> & _);
    [discriminate|].
  cbn [bind]. destruct coin.
  - unfold get_research_prompt. rewrite Hp. cbn [bind].
    exists p, (next (next g)). split; [reflexivity|].
    left. eauto.
  - unfold get_key_concepts. rewrite Hl. cbn [bind].
    destruct (random_choice_ok l (next (next g)) Hne) as (c & -> & Hc).
    cbn [bind]. eexists _, _. split; [reflexivity|].
    right. exists k, d, l, c. auto.
Qed.

Lemma sample_loop_ok turns : forall prompts g,
  exists more g',
    sample_loop research_dict turns prompts g = Ok (prompts ++ more, g')
    /\ length more = turns
    /\ Forall (sampled_from research_dict) more.
Proof.
  induction turns as [|turns IH]; intros prompts g; simpl.
  - exists [], g. rewrite app_nil_r. auto.
  - destruct (sample_prompt_ok g) as (p & g1 & -> & Hp). cbn [bind].
    destruct (IH (prompts ++ [p]) g1) as (more & g' & -> & Hlen & Hall).
    exists (p :: more), g'. rewrite <- app_assoc. simpl.
    repeat split; auto.
Qed.

End CompleteMap.

(** The lower-casing of the code is the lower-casing by the table of
    letters. *)
Lemma lower_char_letter c :
  lower_char c = letter_of capital_letters small_letters c.
Proof.
  destruct c as [[] [] [] [] [] [] [] []]; vm_compute; reflexivity.
Qed.

Lemma lower_lower_cased s : lower s = lower_cased s.
Proof.
  unfold lower, lower_cased. apply map_ext. exact lower_char_letter.
Qed.

(** What the sampler draws is a prompt in the words of the specification. *)
Lemma sampled_from_prompt_of_map research_dict prompt :
  sampled_from research_dict prompt -> prompt_of_map research_dict prompt.
Proof.
  intros [H|(k & d & l & c & Hk & Hl & Hc & ->)]; [left; exact H|].
  right. exists k, d, l, c. repeat split; auto.
  unfold template. rewrite !lower_lower_cased. reflexivity.
Qed.

(** C1: on a non-empty map whose records all have a research prompt and a
    non-empty list of key concepts, and for a count [n > 0], the sampler
    returns exactly [n] prompts, whatever the random source draws; each is
    verbatim the research prompt of a category of the map, or the sentence
    "How can {concept} be applied in {category} to improve solar farm
    efficiency?" with the lower-cased name of a category of the map and the
    lower-cased form of a key concept of that same category. *)
Theorem generate_research_prompts_complete
  (research_dict : dict details) (n : Z) (g : rng) :
  research_dict <> [] ->
  (forall k d, dict_get research_dict k = Some d -> complete d) ->
  (0 < n)%Z ->
  exists prompts,
    generate_research_prompts research_dict n g = Ok prompts
    /\ Z.of_nat (length prompts) = n
    /\ Forall (prompt_of_map research_dict) prompts.
Proof.
  intros Hne Hall Hn. unfold generate_research_prompts.
  destruct (sample_loop_ok research_dict Hne Hall (Z.to_nat n) [] g)
    as (more & g' & -> & Hlen & Hs).
  cbn. exists more. repeat split; [lia|].
  eapply Forall_impl; [|exact Hs]. apply sampled_from_prompt_of_map.
Qed.

Lemma sample_dict_complete k d :
  dict_get sample_dict k = Some d -> complete d.
Proof.
  unfold sample_dict. cbn [dict_get].
  intros H.
  destruct (str_eqb (lit "Drones") k).
  - inversion H; subst. eexists _, _. repeat split; discriminate.
  - destruct (str_eqb (lit "Robots") k); [|discriminate].
    inversion H; subst. eexists _, _. repeat split; discriminate.
Qed.

Lemma generate_research_prompts_complete_witness :
  exists prompts,
    generate_research_prompts sample_dict 3 (draws [0; 1; 1; 1; 0]) = Ok prompts
    /\ Z.of_nat (length prompts) = 3%Z
    /\ Forall (prompt_of_map sample_dict) prompts.
Proof.
  apply generate_research_prompts_complete.
  - discriminate.
  - exact sample_dict_complete.
  - lia.
Defined.

(** What the sampler returns on that input. *)
Example sample_dict_three_prompts :
  generate_research_prompts sample_dict 3 (draws [0; 1; 1; 1; 0])
  = Ok [ lit "How can lidar be applied in drones to improve solar farm efficiency?";
         lit "How do robots help?";
         lit "How do drones help?" ].
Proof. reflexivity. Qed.

(** C9: for a count of zero the sampler returns the empty sequence, on every
    map, the empty one included, and raises nothing. *)
Theorem generate_research_prompts_zero (research_dict : dict details) (g : rng) :
  generate_research_prompts research_dict 0 g = Ok [].
Proof. reflexivity. Qed.

(** The claim C3 at a concrete input: with one prompt asked from the empty
    map the sampler returns no sequence, it raises IndexError. *)
Lemma empty_map_one_prompt_raises :
  generate_research_prompts [] 1 (draws []) = Raise IndexError
  /\ ~ (exists prompts, generate_research_prompts [] 1 (draws []) = Ok prompts).
Proof.
  split; [reflexivity|]. intros [prompts H]. discriminate H.
Qed.

(** C3, amended: for every count [n > 0] the sampler on the empty map raises
    IndexError, from choosing among no keys; the count is not coerced and no
    sequence is returned. *)
Theorem generate_research_prompts_empty_map (n : Z) (g : rng) :
  (0 < n)%Z -> generate_research_prompts [] n g = Raise IndexError.
Proof.
  intros Hn. unfold generate_research_prompts.
  destruct (Z.to_nat n) as [|turns] eqn:E; [lia|]. reflexivity.
Qed.

Lemma generate_research_prompts_empty_map_witness :
  generate_research_prompts [] 4 (draws [2; 7]) = Raise IndexError.
Proof. apply generate_research_prompts_empty_map. lia. Defined.

(** The turns of the loop run one after the other. *)
Lemma sample_loop_app research_dict i j : forall prompts g,
  sample_loop research_dict (i + j) prompts g
  = (r <- sample_loop research_dict i prompts g ;;
     sample_loop research_dict j (fst r) (snd r)).
Proof.
  induction i as [|i IH]; intros prompts g; simpl; [reflexivity|].
  destruct (sample_prompt research_dict g) as [[p g1]|e]; simpl; auto.
Qed.

(** The claim C4 at a concrete input: the category without a research prompt
    is selected, the coin asks for the research prompt, and the sampler
    raises KeyError instead of returning prompts. *)
Lemma promptless_record_raises :
  generate_research_prompts promptless_dict 1 (draws [0; 0])
  = Raise (KeyError (KText (lit "research_prompt")))
  /\ ~ (exists prompts,
          generate_research_prompts promptless_dict 1 (draws [0; 0]) = Ok prompts).
Proof.
  split; [reflexivity|]. intros [prompts H]. discriminate H.
Qed.

(** C4, amended: the sampler has no fallback.  When, after [i] turns that
    went well, the next turn selects a category and the coin asks for a field
    that the record lacks, the whole call raises: KeyError for an absent
    research prompt (coin true) and for an absent key-concept list (coin
    false), IndexError for an empty key-concept list (coin false). *)
Theorem generate_research_prompts_defective
  (research_dict : dict details) (n : Z) (g : rng)
  (i : nat) (prompts : list str) (g' : rng)
  (k : str) (d : details) (coin : bool) (e : exn) :
  (Z.of_nat i < n)%Z ->
  sample_loop research_dict i [] g = Ok (prompts, g') ->
  random_choice (keys research_dict) g' = Ok (k, next g') ->
  dict_get research_dict k = Some d ->
  random_choice [true; false] (next g') = Ok (coin, next (next g')) ->
  (coin = true /\ research_prompt d = None
     /\ e = KeyError (KText (lit "research_prompt")))
  \/ (coin = false /\ key_concepts d = None
        /\ e = KeyError (KText (lit "key_concepts")))
  \/ (coin = false /\ key_concepts d = Some [] /\ e = IndexError) ->
  generate_research_prompts research_dict n g = Raise e.
Proof.
  intros Hi Hloop Hk Hd Hcoin Hcase.
  assert (Hturn : sample_prompt research_dict g' = Raise e).
  { unfold sample_prompt. rewrite Hk. cbn [bind].
    unfold subscript. rewrite Hd. cbn [bind]. rewrite Hcoin. cbn [bind].
    destruct Hcase as [(-> & Hp & ->) | [(-> & Hc & ->) | (-> & Hc & ->)]].
    - unfold get_research_prompt. rewrite Hp. reflexivity.
    - unfold get_key_concepts. rewrite Hc. reflexivity.
    - unfold get_key_concepts. rewrite Hc. reflexivity. }
  unfold generate_research_prompts.
  replace (Z.to_nat n) with (i + S (Z.to_nat n - S i)) by lia.
  rewrite sample_loop_app, Hloop. cbn [bind fst snd sample_loop].
  rewrite Hturn. reflexivity.
Qed.

Lemma generate_research_prompts_defective_witness :
  generate_research_prompts conceptless_dict 3 (draws [0; 0; 1; 1]) = Raise IndexError.
Proof.
  apply (generate_research_prompts_defective conceptless_dict 3 (draws [0; 0; 1; 1])
           1 [lit "How do drones help?"] (draws [1; 1])
           (lit "Robots") (mkDetails None (Some (lit "How do robots help?")) (Some []))
           false IndexError).
  - lia.
  - reflexivity.
  - reflexivity.
  - reflexivity.
  - reflexivity.
  - right. right. repeat split.
Defined.

(** ** The result formatter *)

Section FormatterFacts.

Variable str_of : json -> str.

(** A list of citation objects adds one line per citation, in order. *)
Lemma add_citations urls : forall items out,
  Forall2 citation urls items ->
  for_each (add_citation str_of) items out
  = Ok (out ++ concat (map source_line urls)).
Proof.
  induction urls as [|u urls IH]; intros items out H; inversion H; subst; simpl.
  - rewrite app_nil_r. reflexivity.
  - match goal with Hc : citation u _ |- _ => destruct Hc as (m & -> & Hm) end.
    unfold add_citation, subscript_key, subscript. rewrite Hm. cbn [bind format_value].
    rewrite IH by assumption. unfold source_line.
    repeat rewrite <- app_assoc. reflexivity.
Qed.

(** A well-formed answer: the content, then the sources, one per line. *)
Lemma format_output_answer m choice rest message content urls items :
  dict_get m (lit "choices") = Some (JArr (JObj choice :: rest)) ->
  dict_get choice (lit "message") = Some (JObj message) ->
  dict_get message (lit "content") = Some (JStr content) ->
  dict_get m (lit "citations") = Some (JArr items) ->
  Forall2 citation urls items ->
  format_output str_of (JObj m)
  = Ok (newline ++ lit "Research Results:" ++ newline ++ newline
          ++ content ++ newline ++ newline ++ lit "Sources:" ++ newline
          ++ concat (map source_line urls)).
Proof.
  intros Hm Hc Hmsg Hcit Hurls. unfold format_output.
  destruct m as [|kv m']; [discriminate|]. cbn [truthy negb].
  unfold subscript_key at 1. unfold subscript. rewrite Hm. cbn [bind subscript_zero index nth_error].
  unfold subscript_key at 1. unfold subscript. rewrite Hc. cbn [bind].
  unfold subscript_key at 1. unfold subscript. rewrite Hmsg. cbn [bind].
  unfold get_default. rewrite Hcit. cbn [bind iterate format_value].
  rewrite (add_citations urls) by assumption.
  f_equal. repeat rewrite <- app_assoc. reflexivity.
Qed.

End FormatterFacts.

(** C5: a response with content [X] and the citations
    [[{"url": "http://a"}, {"url": "http://b"}]] is formatted to the text
    that holds [X], then the Sources section with http://a and http://b, one
    per line and in that order; the value [None] is formatted to the fixed
    message. *)
Theorem format_output_content_and_sources
  (str_of : json -> str) (m choice message : list (str * json))
  (rest : list json) (X : str) :
  dict_get m (lit "choices") = Some (JArr (JObj choice :: rest)) ->
  dict_get choice (lit "message") = Some (JObj message) ->
  dict_get message (lit "content") = Some (JStr X) ->
  dict_get m (lit "citations")
  = Some (JArr [ JObj [(lit "url", JStr (lit "http://a"))];
                 JObj [(lit "url", JStr (lit "http://b"))] ]) ->
  format_output str_of (JObj m)
  = Ok (lit "
Research Results:

" ++ X ++ lit "

Sources:
- http://a
- http://b
")
  /\ format_output str_of JNull = Ok (lit "No response received from Perplexity AI.").
Proof.
  intros Hm Hc Hmsg Hcit. split; [|reflexivity].
  assert (Hurls : Forall2 citation [lit "http://a"; lit "http://b"]
            [ JObj [(lit "url", JStr (lit "http://a"))];
              JObj [(lit "url", JStr (lit "http://b"))] ]).
  { repeat constructor; eexists; split; reflexivity. }
  rewrite (format_output_answer str_of m choice rest message X _ _
             Hm Hc Hmsg Hcit Hurls).
  reflexivity.
Qed.


Lemma format_output_content_and_sources_witness :
  format_output (fun _ => []) (JObj sample_response)
  = Ok (lit "
Research Results:

" ++ lit "X" ++ lit "

Sources:
- http://a
- http://b
")
  /\ format_output (fun _ => []) JNull
     = Ok (lit "No response received from Perplexity AI.").
Proof.
  apply (format_output_content_and_sources (fun _ => []) sample_response
           [ (lit "index", JNum 0);
             (lit "message",
                JObj [ (lit "role", JStr (lit "assistant"));
                       (lit "content", JStr (lit "X")) ]) ]
           [ (lit "role", JStr (lit "assistant"));
             (lit "content", JStr (lit "X")) ]
           [] (lit "X")); reflexivity.
Defined.

(** ** The research query client *)

Lemma attempts_app log1 log2 : attempts (log1 ++ log2) = attempts log1 + attempts log2.
Proof.
  induction log1 as [|[r|msg|text] log1 IH]; simpl; auto.
Qed.

(** An error status makes [raise_for_status] raise a RequestException. *)
Lemma raise_for_status_error r :
  (400 <= status_code r < 600)%Z ->
  exists msg, raise_for_status r = Raise (RequestException msg).
Proof.
  intros H. unfold raise_for_status.
  destruct ((400 <=? status_code r)%Z && (status_code r <? 500)%Z) eqn:E1; [eauto|].
  destruct ((500 <=? status_code r)%Z && (status_code r <? 600)%Z) eqn:E2; [eauto|].
  apply andb_false_iff in E1, E2. lia.
Qed.

(** Any other status passes. *)
Lemma raise_for_status_pass r :
  ~ (400 <= status_code r < 600)%Z -> raise_for_status r = Ok tt.
Proof.
  intros H. unfold raise_for_status.
  destruct ((400 <=? status_code r)%Z && (status_code r <? 500)%Z) eqn:E1;
    [apply andb_true_iff in E1; lia|].
  destruct ((500 <=? status_code r)%Z && (status_code r <? 600)%Z) eqn:E2;
    [apply andb_true_iff in E2; lia|].
  reflexivity.
Qed.

(** The statuses that are not [ok] are the error statuses. *)
Lemma ok_status r : ok r = false <-> (400 <= status_code r < 600)%Z.
Proof.
  unfold ok. split.
  - intros H. destruct (Z_le_dec 400 (status_code r)) as [H1|H1];
      [destruct (Z_lt_dec (status_code r) 600) as [H2|H2]; [lia|] |];
      rewrite raise_for_status_pass in H by lia; discriminate.
  - intros H. destruct (raise_for_status_error r H) as [msg ->]. reflexivity.
Qed.

Section ClientFacts.

Variable net : network.
Variables prompt api_key : str.

Let req := perplexity_request prompt api_key.

(** The call as one case analysis: the request is logged, the three steps
    of the body give an answer or an exception, and only a
    RequestException is turned into [None]. *)
Lemma query_perplexity_cases log :
  query_perplexity net prompt api_key log
  = match (r <- net req ;; _ <- raise_for_status r ;; resp_json r) with
    | Ok v => (Ok v, log ++ [Post req])
    | Raise (RequestException msg) =>
        (Ok JNull,
         log ++ [Post req; StError (lit "Error querying Perplexity AI: " ++ msg)])
    | Raise e => (Raise e, log ++ [Post req])
    end.
Proof.
  unfold req, perplexity_request.
  cbv [query_perplexity try_except io_bind requests_post emit io_lift
       st_error io_ret].
  destruct (net _) as [r|e1]; cbn [bind].
  - destruct (raise_for_status r) as [[]|e2]; cbn [bind].
    + destruct (resp_json r) as [v|e3]; [reflexivity|].
      destruct e3; try reflexivity. rewrite <- app_assoc. reflexivity.
    + destruct e2; try reflexivity. rewrite <- app_assoc. reflexivity.
  - destruct e1; try reflexivity. rewrite <- app_assoc. reflexivity.
Qed.

(** The call sends its one request first; what follows in the log is at
    most the error shown to the user. *)
Lemma query_perplexity_log log :
  exists shown,
    snd (query_perplexity net prompt api_key log) = log ++ Post req :: shown
    /\ attempts shown = 0.
Proof.
  rewrite query_perplexity_cases.
  destruct (r <- net req ;; _ <- raise_for_status r ;; resp_json r) as [v|e].
  - exists []. split; reflexivity.
  - destruct e; try (exists []; split; reflexivity).
    eexists [_]. split; reflexivity.
Qed.

(** A failed query returns [None] and reports the error. *)
Lemma query_perplexity_failed log :
  failed_query (net req) ->
  exists msg,
    query_perplexity net prompt api_key log
    = (Ok JNull,
       log ++ [Post req; StError (lit "Error querying Perplexity AI: " ++ msg)]).
Proof.
  rewrite query_perplexity_cases.
  intros [[msg ->] | (r & -> & Hs)]; cbn [bind].
  - exists msg. reflexivity.
  - apply ok_status in Hs.
    destruct (raise_for_status_error r Hs) as [msg ->]. cbn [bind].
    exists msg. reflexivity.
Qed.

(** A query that is answered with a status outside 400..599 and a JSON
    body returns that body. *)
Lemma query_perplexity_answered log r v :
  net req = Ok r ->
  ~ (400 <= status_code r < 600)%Z ->
  resp_json r = Ok v ->
  query_perplexity net prompt api_key log = (Ok v, log ++ [Post req]).
Proof.
  rewrite query_perplexity_cases. intros -> Hs Hv. cbn [bind].
  rewrite (raise_for_status_pass r Hs). cbn [bind]. rewrite Hv. reflexivity.
Qed.

End ClientFacts.




(** The statuses 400..599 are the only ones that are not [ok]: a response
    with another status and a JSON body is returned as it is. *)
Example multiple_choices_answer :
  query_perplexity multiple_choices (lit "p") (lit "k") []
  = (Ok (JObj []), [Post (perplexity_request (lit "p") (lit "k"))]).
Proof. reflexivity. Qed.

(** * Further properties *)

(** ** The category parser *)

Lemma keys_set_iff {V} (d : dict V) k v k' :
  In k' (keys (dict_set d k v)) <-> In k' (keys d) \/ k' = k.
Proof.
  destruct (in_keys_dec d k) as [Hin|Hout].
  - rewrite keys_set_present by assumption. split; [auto|].
    intros [H| ->]; assumption.
  - rewrite keys_set_absent by assumption. rewrite in_app_iff. simpl.
    split; intros [H|H]; auto.
    + destruct H as [H|[]]. auto.
Qed.

Lemma fold_add_keys categories : forall d k,
  In k (keys (fold_left add_category categories d))
  <-> In k (keys d) \/ In k (map category_name categories).
Proof.
  induction categories as [|c categories IH]; intros d k; simpl.
  - tauto.
  - rewrite IH. unfold add_category at 1. rewrite keys_set_iff.
    split; intros H; repeat destruct H as [H|H]; auto.
Qed.

Lemma fold_add_get categories : forall d k r,
  dict_get (fold_left add_category categories d) k = Some r ->
  dict_get d k = Some r
  \/ exists c, In c categories /\ k = category_name c /\ r = category_details c.
Proof.
  induction categories as [|c categories IH]; intros d k r H; simpl in *; [auto|].
  apply IH in H as [H|(c' & Hin & Hk & Hr)].
  - unfold add_category in H.
    destruct (list_eq_dec ascii_dec (category_name c) k) as [E|E].
    + subst k. rewrite dict_get_set_same in H. inversion H. right. exists c. auto.
    + rewrite dict_get_set_other in H by assumption. auto.
  - right. exists c'. auto.
Qed.

Lemma fold_add_nonempty categories d :
  categories <> [] -> fold_left add_category categories d <> [].
Proof.
  destruct categories as [|c categories]; [congruence|]. intros _ H.
  assert (Hin : In (category_name c)
                  (keys (fold_left add_category (c :: categories) d))).
  { simpl. apply fold_add_keeps. unfold add_category. apply keys_set_in. }
  rewrite H in Hin. destruct Hin.
Qed.

Lemma find_match_none_everywhere matcher s :
  find_match matcher s = None -> forall i, matcher (skipn i s) = None.
Proof.
  induction s as [|c s IH]; simpl.
  - destruct (matcher []) eqn:E; [discriminate|]. intros _ i.
    destruct i; exact E.
  - destruct (matcher (c :: s)) eqn:E; [discriminate|].
    destruct (find_match matcher s) as [[b r]|] eqn:E'; [discriminate|].
    intros _ [|i]; [exact E | apply IH; reflexivity].
Qed.

(** X1: the keys of the parsed map are exactly the names of the blocks of
    the text, each once, so there are at most as many keys as blocks. *)
Theorem parse_research_categories_keys (text : str) :
  exists d,
    parse_research_categories text = Ok d
    /\ NoDup (keys d)
    /\ length (keys d) <= length (tl (re_split_marker text))
    /\ forall k,
         In k (keys d)
         <-> exists c v, In c (tl (re_split_marker text))
                         /\ parse_category [] c = Ok [(k, v)].
Proof.
  rewrite parse_research_categories_read. eexists. split; [reflexivity|].
  split; [apply fold_add_nodup; constructor|].
  split.
  - rewrite length_keys. apply (fold_add_length _ []).
  - intros k. rewrite fold_add_keys. simpl. rewrite in_map_iff. split.
    + intros [[]|(c & Hc & Hin)]. exists c, (category_details c).
      split; [assumption|]. apply parse_category_alone. auto.
    + intros (c & v & Hin & Hc). right. exists c.
      apply parse_category_alone in Hc as [Hc _]. auto.
Qed.

(** X2: the parsed map is empty exactly when the text holds no marker. *)
Theorem parse_research_categories_empty_iff (text : str) :
  parse_research_categories text = Ok [] <-> no_marker text.
Proof.
  split.
  - rewrite parse_research_categories_read. intros H.
    apply no_marker_no_match. apply find_match_none_everywhere.
    rewrite re_split_marker_unfold in H.
    destruct (find_match match_marker text) as [[b r]|]; [|reflexivity].
    exfalso. cbn [tl] in H. inversion H as [H'].
    revert H'. apply fold_add_nonempty.
    rewrite re_split_marker_unfold.
    destruct (find_match match_marker r) as [[b' r']|]; discriminate.
  - intros H. unfold parse_research_categories.
    rewrite re_split_marker_unfold, find_match_no_marker by assumption.
    reflexivity.
Qed.

(** X3: what stands before the first marker is discarded: the text parses
    like the text that starts at its first marker. *)
Theorem parse_research_categories_preamble (before m rest : str) :
  no_marker before -> marker m ->
  parse_research_categories (before ++ m ++ rest)
  = parse_research_categories (m ++ rest).
Proof.
  intros Hb Hm. unfold parse_research_categories.
  rewrite (re_split_marker_unfold (before ++ m ++ rest)).
  rewrite find_match_marker by assumption.
  rewrite (re_split_marker_unfold (m ++ rest)).
  assert (Hnil : no_marker []).
  { intros p m' q Hm' Heq. destruct p; [|discriminate].
    destruct Hm' as (ds & ws & -> & _). discriminate. }
  pose proof (find_match_marker [] m rest Hnil Hm) as H. cbn [app] in H.
  rewrite H. reflexivity.
Qed.

Lemma parse_research_categories_preamble_witness :
  parse_research_categories (intro_text ++ lit "**1. " ++ drones_block)
  = parse_research_categories (lit "**1. " ++ drones_block).
Proof.
  apply parse_research_categories_preamble.
  - apply has_marker_false. vm_compute. reflexivity.
  - exists (lit "1"), (lit " "). repeat split; (reflexivity || discriminate).
Defined.

Lemma drop_while_head f s c rest : drop_while f s = c :: rest -> f c = false.
Proof.
  induction s as [|a s IH]; simpl; [discriminate|].
  destruct (f a) eqn:E; [assumption|]. intros H. inversion H; subst. exact E.
Qed.

(** Stripping a second time changes nothing. *)
Lemma strip_by_twice f s : strip_by f (strip_by f s) = strip_by f s.
Proof.
  unfold strip_by, lstrip_by, rstrip_by.
  set (x := drop_while f s).
  assert (Hl : drop_while f (rev (drop_while f (rev x)))
               = rev (drop_while f (rev x))).
  { destruct (drop_while_run f (rev x)) as (run & Hx & _).
    apply (f_equal (@rev ascii)) in Hx. rewrite rev_involutive, rev_app_distr in Hx.
    destruct (rev (drop_while f (rev x))) as [|c y] eqn:Ey; [reflexivity|].
    cbn [app] in Hx. unfold x in Hx. apply drop_while_head in Hx.
    simpl. rewrite Hx. reflexivity. }
  rewrite Hl, rev_involutive, drop_while_stops. reflexivity.
Qed.

Lemma read_line_trimmed d line : trimmed d -> trimmed (read_line d line).
Proof.
  intros (Hd & Hp & Hc). unfold read_line, trimmed.
  destruct (startswith line (lit "* **Description:**")).
  { cbn [description research_prompt key_concepts].
    split; [|split; [exact Hp | exact Hc]].
    intros v H. inversion H. apply strip_by_twice. }
  destruct (startswith line (lit "* **Research Prompt:**")).
  { cbn [description research_prompt key_concepts].
    split; [exact Hd | split; [|exact Hc]].
    intros v H. inversion H. apply strip_by_twice. }
  destruct (startswith line (lit "* **Key Concepts:**")); [|auto].
  cbn [description research_prompt key_concepts].
  split; [exact Hd|]. split; [exact Hp|].
  intros l H. inversion H. subst l. clear H. split.
  - intros Hmap. apply map_eq_nil in Hmap. revert Hmap.
    apply str_split_nonempty. discriminate.
  - intros c Hin. apply in_map_iff in Hin as (x & <- & _). apply strip_by_twice.
Qed.

Lemma category_details_trimmed category : trimmed (category_details category).
Proof.
  unfold category_details.
  assert (H : forall lines d, trimmed d -> trimmed (fold_left read_line lines d)).
  { induction lines as [|line lines IH]; intros d Hd; simpl; [assumption|].
    apply IH, read_line_trimmed, Hd. }
  apply H. repeat split; discriminate.
Qed.

Lemma parsed_records_trimmed text d k r :
  parse_research_categories text = Ok d ->
  dict_get d k = Some r -> trimmed r.
Proof.
  rewrite parse_research_categories_read. intros H Hk. inversion H. subst d.
  apply fold_add_get in Hk as [Hk|(c & _ & -> & ->)]; [discriminate|].
  apply category_details_trimmed.
Qed.

(** X4: in a parsed map every category name is free of asterisks at both
    ends, every description of blanks at both ends, every research prompt of
    asterisks at both ends, and a key-concept list that is present is never
    empty and holds concepts without blanks at either end. *)
Theorem parse_research_categories_trimmed
  (text : str) (d : dict details) (k : str) (r : details) :
  parse_research_categories text = Ok d ->
  dict_get d k = Some r ->
  strip_stars k = k /\ trimmed r.
Proof.
  rewrite parse_research_categories_read. intros H Hk. inversion H. subst d.
  apply fold_add_get in Hk as [Hk|(c & _ & -> & ->)]; [discriminate|].
  split; [apply strip_by_twice | apply category_details_trimmed].
Qed.

Lemma parse_research_categories_trimmed_witness :
  strip_stars (lit "Drones") = lit "Drones"
  /\ trimmed (mkDetails (Some (lit "Using drones.")) (Some (lit "How do drones help?"))
                        (Some [lit "A"; lit "B"; lit "C"])).
Proof.
  apply (parse_research_categories_trimmed three_blocks_text
           [ (lit "Drones",
              mkDetails (Some (lit "Using drones.")) (Some (lit "How do drones help?"))
                        (Some [lit "A"; lit "B"; lit "C"]));
             (lit "Robots",
              mkDetails (Some (lit "Using robots.")) (Some (lit "How do robots help?"))
                        (Some [lit "Cleaning"; lit "Brushes"]));
             (lit "Sensors",
              mkDetails (Some (lit "Using sensors.")) (Some (lit "How do sensors help?"))
                        (Some [lit "IoT"])) ]).
  - vm_compute. reflexivity.
  - vm_compute. reflexivity.
Defined.

Lemma last_line_snoc label lines line :
  last_line label (lines ++ [line])
  = if startswith line label then Some line else last_line label lines.
Proof.
  unfold last_line. rewrite rev_app_distr. reflexivity.
Qed.

(** X5: the loop over the lines of a category reads each field from the
    last line that starts with its bullet and leaves it absent when there is
    no such line; lines that start with none of the three bullets change
    nothing. *)
Theorem parse_lines_last_bullet (lines : list str) :
  for_each parse_line lines no_details
  = Ok (mkDetails
          (option_map (fun line => strip (piece (lit "**Description:**") line))
             (last_line (lit "* **Description:**") lines))
          (option_map
             (fun line => strip_stars (strip (piece (lit "**Research Prompt:**") line)))
             (last_line (lit "* **Research Prompt:**") lines))
          (option_map
             (fun line => map strip (str_split (lit ",")
                            (strip (piece (lit "**Key Concepts:**") line))))
             (last_line (lit "* **Key Concepts:**") lines))).
Proof.
  rewrite (for_each_fold parse_line read_line parse_line_read). f_equal.
  induction lines as [|line lines IH] using rev_ind; [reflexivity|].
  rewrite fold_left_app, IH. cbn [fold_left]. rewrite !last_line_snoc.
  unfold read_line. cbn [description research_prompt key_concepts].
  destruct (bullets_differ line) as (Hd & Hp & Hc).
  destruct (startswith line (lit "* **Description:**")) eqn:E1.
  { destruct (Hd eq_refl) as [-> ->]. reflexivity. }
  destruct (startswith line (lit "* **Research Prompt:**")) eqn:E2.
  { destruct (Hp eq_refl) as [_ ->]. reflexivity. }
  destruct (startswith line (lit "* **Key Concepts:**")); reflexivity.
Qed.

Lemma str_split_join_bounded sep n : forall s,
  sep <> [] -> length s <= n -> join sep (str_split sep s) = s.
Proof.
  induction n as [|n IH]; intros s Hsep Hlen.
  - destruct s; [|simpl in Hlen; lia].
    rewrite str_split_unfold by assumption. cbn [find_match].
    destruct (strip_prefix sep []) as [rest|] eqn:E; [|reflexivity].
    apply strip_prefix_app in E. destruct sep; [congruence | discriminate].
  - rewrite str_split_unfold by assumption.
    destruct (find_match (strip_prefix sep) s) as [[before rest]|] eqn:E;
      [|reflexivity].
    pose proof (find_match_shorter (strip_prefix sep)
                  (fun s0 r => strip_prefix_progress sep s0 r Hsep)
                  s before rest E) as Hshort.
    apply find_match_some in E as (s' & -> & Hs').
    apply strip_prefix_app in Hs'. subst s'.
    pose proof (str_split_nonempty sep rest Hsep) as Hne.
    cbn [join]. destruct (str_split sep rest) as [|p ps] eqn:Er; [congruence|].
    rewrite <- Er, IH by (assumption || lia). reflexivity.
Qed.

(** X26: splitting loses nothing: the pieces that [split] cuts a text into,
    joined again with the separator, are the text; so the lines of a
    category and the key concepts of a line hold every character that is
    not a separator. *)
Theorem str_split_join (sep s : str) :
  sep <> [] -> join sep (str_split sep s) = s.
Proof.
  intros Hsep. apply (str_split_join_bounded sep (length s)); auto.
Qed.

Lemma str_split_join_witness :
  join (lit ",") (str_split (lit ",") (lit "A, B,C")) = lit "A, B,C".
Proof. apply str_split_join. discriminate. Defined.

(** ** The prompt sampler *)

Lemma random_choice_inv {A} (seq : list A) g a g' :
  random_choice seq g = Ok (a, g') -> In a seq /\ g' = next g.
Proof.
  unfold random_choice. destruct seq as [|x seq]; [discriminate|].
  destruct (index (x :: seq) (g 0 mod length (x :: seq))) as [b|e] eqn:E;
    [|discriminate].
  cbn [bind]. intros H. inversion H; subst. split; [|reflexivity].
  eapply index_in; eauto.
Qed.

Lemma random_choice_raise {A} (seq : list A) g e :
  random_choice seq g = Raise e -> seq = [] /\ e = IndexError.
Proof.
  intros H. destruct seq as [|x seq]; [inversion H; auto|].
  destruct (random_choice_ok (x :: seq) g) as (a & Ha & _); [discriminate|].
  congruence.
Qed.

Lemma sample_prompt_sound research_dict g prompt g' :
  sample_prompt research_dict g = Ok (prompt, g') ->
  sampled_from research_dict prompt.
Proof.
  unfold sample_prompt.
  destruct (random_choice (keys research_dict) g) as [[k g1]|e] eqn:Ek; [|discriminate].
  cbn [bind]. unfold subscript.
  destruct (dict_get research_dict k) as [d|] eqn:Ed; [|discriminate].
  cbn [bind].
  destruct (random_choice [true; false] g1) as [[coin g2]|e] eqn:Ec; [|discriminate].
  cbn [bind]. destruct coin.
  - unfold get_research_prompt. destruct (research_prompt d) as [p|] eqn:Ep; [|discriminate].
    cbn [bind]. intros H. inversion H; subst. left. eauto.
  - unfold get_key_concepts. destruct (key_concepts d) as [l|] eqn:El; [|discriminate].
    cbn [bind].
    destruct (random_choice l g2) as [[c g3]|e] eqn:Ecc; [|discriminate].
    cbn [bind]. intros H. inversion H; subst.
    apply random_choice_inv in Ecc as [Hc _].
    right. exists k, d, l, c. auto.
Qed.

Lemma sample_prompt_fault research_dict g e :
  sample_prompt research_dict g = Raise e -> sampling_fault research_dict e.
Proof.
  unfold sample_prompt, sampling_fault.
  destruct (random_choice (keys research_dict) g) as [[k g1]|e1] eqn:Ek.
  - cbn [bind]. unfold subscript.
    apply random_choice_inv in Ek as [Hk _].
    destruct (dict_get_keys _ _ Hk) as [d Hd]. rewrite Hd. cbn [bind].
    destruct (random_choice_ok [true; false] g1) as (coin & -> & _); [discriminate|].
    cbn [bind]. right. exists k, d. split; [assumption|]. destruct coin.
    + unfold get_research_prompt in H.
      destruct (research_prompt d); [discriminate|]. inversion H. auto.
    + unfold get_key_concepts in H.
      destruct (key_concepts d) as [l|]; [|inversion H; auto].
      cbn [bind] in H.
      destruct (random_choice l (next g1)) as [[c g3]|e3] eqn:Ec; [discriminate|].
      cbn [bind] in H. inversion H; subst.
      apply random_choice_raise in Ec as [-> ->]. auto.
  - cbn [bind]. intros H. inversion H; subst.
    apply random_choice_raise in Ek as [Hk ->]. left. split; [|reflexivity].
    destruct research_dict; [reflexivity | discriminate].
Qed.

Lemma sample_loop_sound research_dict turns : forall prompts g result g',
  sample_loop research_dict turns prompts g = Ok (result, g') ->
  exists more,
    result = prompts ++ more /\ length more = turns
    /\ Forall (sampled_from research_dict) more.
Proof.
  induction turns as [|turns IH]; intros prompts g result g'; simpl.
  - intros H. inversion H; subst. exists []. rewrite app_nil_r. auto.
  - destruct (sample_prompt research_dict g) as [[p g1]|e] eqn:Ep; [|discriminate].
    cbn [bind]. intros H. apply IH in H as (more & -> & Hlen & Hall).
    exists (p :: more). rewrite <- app_assoc. simpl. repeat split; auto.
    constructor; [eapply sample_prompt_sound; eauto | assumption].
Qed.

Lemma sample_loop_fault research_dict turns : forall prompts g e,
  sample_loop research_dict turns prompts g = Raise e ->
  sampling_fault research_dict e.
Proof.
  induction turns as [|turns IH]; intros prompts g e; simpl; [discriminate|].
  destruct (sample_prompt research_dict g) as [[p g1]|e1] eqn:Ep; cbn [bind].
  - apply IH.
  - intros H. inversion H; subst. eapply sample_prompt_fault; eauto.
Qed.

(** X6: whenever the sampler returns, on any map, it returns as many prompts
    as were asked for (none for a negative count), and each prompt is the
    research prompt of a category of the map or the template filled from a
    category and one of its key concepts. *)
Theorem generate_research_prompts_returns
  (research_dict : dict details) (n : Z) (g : rng) (prompts : list str) :
  generate_research_prompts research_dict n g = Ok prompts ->
  Z.of_nat (length prompts) = Z.max 0 n
  /\ Forall (sampled_from research_dict) prompts.
Proof.
  unfold generate_research_prompts.
  destruct (sample_loop research_dict (Z.to_nat n) [] g) as [[ps g']|e] eqn:E;
    [|discriminate].
  cbn. intros H. inversion H; subst.
  apply sample_loop_sound in E as (more & -> & Hlen & Hall).
  split; [simpl; lia | assumption].
Qed.

Lemma generate_research_prompts_returns_witness :
  Z.of_nat (length [lit "How do drones help?"]) = Z.max 0 1
  /\ Forall (sampled_from prompt_only_dict) [lit "How do drones help?"].
Proof.
  apply (generate_research_prompts_returns prompt_only_dict 1 (draws [0; 0])).
  reflexivity.
Defined.

(** X7: a count that is zero or negative gives the empty sequence on every
    map, whatever the records lack. *)
Theorem generate_research_prompts_nonpositive
  (research_dict : dict details) (n : Z) (g : rng) :
  (n <= 0)%Z -> generate_research_prompts research_dict n g = Ok [].
Proof.
  intros Hn. unfold generate_research_prompts.
  replace (Z.to_nat n) with 0 by lia. reflexivity.
Qed.

Lemma generate_research_prompts_nonpositive_witness :
  generate_research_prompts promptless_dict (-2) (draws [0; 0]) = Ok [].
Proof. apply generate_research_prompts_nonpositive. lia. Defined.

(** X8: the sampler raises for no other reason than a fault of the map: an
    empty map (IndexError), a chosen record without research prompt or
    without key concepts (KeyError), or one with an empty list of key
    concepts (IndexError). *)
Theorem generate_research_prompts_raises
  (research_dict : dict details) (n : Z) (g : rng) (e : exn) :
  generate_research_prompts research_dict n g = Raise e ->
  sampling_fault research_dict e.
Proof.
  unfold generate_research_prompts.
  destruct (sample_loop research_dict (Z.to_nat n) [] g) as [[ps g']|e1] eqn:E;
    [discriminate|].
  cbn [bind]. intros H. inversion H; subst. eapply sample_loop_fault; eauto.
Qed.

Lemma generate_research_prompts_raises_witness :
  sampling_fault promptless_dict (KeyError (KText (lit "research_prompt"))).
Proof.
  apply (generate_research_prompts_raises promptless_dict 1 (draws [0; 0])).
  reflexivity.
Defined.

(** X9: parser and sampler together.  On the map parsed from any text, if
    it is not empty and every record has a research prompt and key concepts,
    the sampler returns the prompts asked for and raises nothing: the parser
    never leaves an empty list of key concepts. *)
Theorem parse_then_sample
  (text : str) (d : dict details) (n : Z) (g : rng) :
  parse_research_categories text = Ok d ->
  d <> [] ->
  (forall k r, dict_get d k = Some r ->
     research_prompt r <> None /\ key_concepts r <> None) ->
  (0 < n)%Z ->
  exists prompts,
    generate_research_prompts d n g = Ok prompts
    /\ Z.of_nat (length prompts) = n.
Proof.
  intros Hparse Hne Hfields Hn.
  assert (Hcomplete : forall k r, dict_get d k = Some r -> complete r).
  { intros k r Hk. destruct (Hfields k r Hk) as [Hp Hc].
    destruct (parsed_records_trimmed text d k r Hparse Hk)
      as (_ & _ & Hl).
    destruct (research_prompt r) as [p|] eqn:Ep; [|congruence].
    destruct (key_concepts r) as [l|] eqn:El; [|congruence].
    exists p, l. split; [exact Ep|]. split; [exact El|]. apply (Hl l eq_refl). }
  unfold generate_research_prompts.
  destruct (sample_loop_ok d Hne Hcomplete (Z.to_nat n) [] g)
    as (more & g' & -> & Hlen & _).
  cbn. exists more. split; [reflexivity | lia].
Qed.

Lemma parse_then_sample_witness :
  exists prompts,
    generate_research_prompts
      [ (lit "Drones", mkDetails None (Some (lit "third")) (Some [lit "x"])) ]
      2 (draws [0; 1]) = Ok prompts
    /\ Z.of_nat (length prompts) = 2%Z.
Proof.
  apply (parse_then_sample (lit "**1. Drones
* **Research Prompt:** third
* **Key Concepts:** x")).
  - vm_compute. reflexivity.
  - discriminate.
  - intros k r. cbn [dict_get].
    destruct (str_eqb (lit "Drones") k); [|discriminate].
    intros H. inversion H. split; discriminate.
  - lia.
Defined.

(** ** The result formatter *)

Lemma for_each_app {A S} (body : S -> A -> py S) (l1 l2 : list A) : forall s,
  for_each body (l1 ++ l2) s = (s' <- for_each body l1 s ;; for_each body l2 s').
Proof.
  induction l1 as [|a l1 IH]; intros s; simpl; [reflexivity|].
  destruct (body s a); simpl; auto.
Qed.

Lemma add_citations_extend str_of items : forall out result,
  for_each (add_citation str_of) items out = Ok result ->
  exists tail, result = out ++ tail.
Proof.
  induction items as [|c items IH]; intros out result; simpl.
  - intros H. inversion H. exists []. rewrite app_nil_r. reflexivity.
  - unfold add_citation at 1.
    destruct (subscript_key c (lit "url")) as [u|e]; [|discriminate].
    cbn [bind]. intros H. apply IH in H as [tail ->].
    eexists. rewrite <- app_assoc. reflexivity.
Qed.

(** X10: for an answer with any number of citations, each a dictionary with
    a text [url], the output is the header, the content, the Sources line
    and then one line [- url] per citation, in the order of the list. *)
Theorem format_output_citations
  (str_of : json -> str) (m choice message : list (str * json))
  (rest : list json) (content : str) (urls : list str) (items : list json) :
  dict_get m (lit "choices") = Some (JArr (JObj choice :: rest)) ->
  dict_get choice (lit "message") = Some (JObj message) ->
  dict_get message (lit "content") = Some (JStr content) ->
  dict_get m (lit "citations") = Some (JArr items) ->
  Forall2 citation urls items ->
  format_output str_of (JObj m)
  = Ok (lit "
Research Results:

" ++ content ++ lit "

Sources:
" ++ concat (map (fun url => lit "- " ++ url ++ newline) urls)).
Proof.
  intros Hm Hc Hmsg Hcit Hurls.
  rewrite (format_output_answer str_of m choice rest message content urls items)
    by assumption.
  reflexivity.
Qed.

Lemma format_output_citations_witness :
  format_output (fun _ => []) (JObj sample_response)
  = Ok (lit "
Research Results:

" ++ lit "X" ++ lit "

Sources:
" ++ concat (map (fun url => lit "- " ++ url ++ newline)
               [lit "http://a"; lit "http://b"])).
Proof.
  apply (format_output_citations (fun _ => []) sample_response
           [ (lit "index", JNum 0);
             (lit "message",
                JObj [ (lit "role", JStr (lit "assistant"));
                       (lit "content", JStr (lit "X")) ]) ]
           [ (lit "role", JStr (lit "assistant"));
             (lit "content", JStr (lit "X")) ]
           [] (lit "X") [lit "http://a"; lit "http://b"]
           [ JObj [(lit "url", JStr (lit "http://a"))];
             JObj [(lit "url", JStr (lit "http://b"))] ]);
    try reflexivity.
  repeat constructor; eexists; split; reflexivity.
Defined.

(** X11: an answer without the key [citations] is formatted with an empty
    Sources section: the output ends with the Sources line. *)
Theorem format_output_no_citations
  (str_of : json -> str) (m choice message : list (str * json))
  (rest : list json) (content : str) :
  dict_get m (lit "choices") = Some (JArr (JObj choice :: rest)) ->
  dict_get choice (lit "message") = Some (JObj message) ->
  dict_get message (lit "content") = Some (JStr content) ->
  dict_get m (lit "citations") = None ->
  format_output str_of (JObj m)
  = Ok (lit "
Research Results:

" ++ content ++ lit "

Sources:
").
Proof.
  intros Hm Hc Hmsg Hcit. unfold format_output.
  destruct m as [|kv m']; [discriminate|]. cbn [truthy negb].
  unfold subscript_key at 1. unfold subscript. rewrite Hm.
  cbn [bind subscript_zero index nth_error].
  unfold subscript_key at 1. unfold subscript. rewrite Hc. cbn [bind].
  unfold subscript_key at 1. unfold subscript. rewrite Hmsg. cbn [bind].
  unfold get_default. rewrite Hcit. reflexivity.
Qed.

Lemma format_output_no_citations_witness :
  format_output (fun _ => [])
    (JObj [ (lit "choices",
              JArr [ JObj [ (lit "message",
                              JObj [ (lit "content", JStr (lit "X")) ]) ] ]) ])
  = Ok (lit "
Research Results:

" ++ lit "X" ++ lit "

Sources:
").
Proof.
  apply (format_output_no_citations (fun _ => [])
           [ (lit "choices",
               JArr [ JObj [ (lit "message",
                               JObj [ (lit "content", JStr (lit "X")) ]) ] ]) ]
           [ (lit "message", JObj [ (lit "content", JStr (lit "X")) ]) ]
           [ (lit "content", JStr (lit "X")) ] [] (lit "X")); reflexivity.
Defined.

(** X12: the formatter returns a text only for [None] and the other values
    that count as false, or for a dictionary whose [choices] is a list that
    starts with a dictionary whose [message] is a dictionary with a
    [content]; the text then starts with the header, the content and the
    Sources line.  Any other value makes it raise. *)
Theorem format_output_returns
  (str_of : json -> str) (response : json) (out : str) :
  format_output str_of response = Ok out ->
  truthy response = true ->
  exists m choice rest message content tail,
    response = JObj m
    /\ dict_get m (lit "choices") = Some (JArr (JObj choice :: rest))
    /\ dict_get choice (lit "message") = Some (JObj message)
    /\ dict_get message (lit "content") = Some content
    /\ out = lit "
Research Results:

" ++ format_value str_of content ++ lit "

Sources:
" ++ tail.
Proof.
  unfold format_output. intros H Ht. rewrite Ht in H. cbn [negb] in H.
  destruct response as [| | | | |l|m]; try discriminate H.
  unfold subscript_key at 1 in H. unfold subscript in H.
  destruct (dict_get m (lit "choices")) as [choices|] eqn:Em; [|discriminate H].
  cbn [bind] in H.
  destruct choices as [| | | |s|l|o]; try discriminate H.
  - (* a text: its first character takes no key *)
    cbn [subscript_zero] in H. destruct (index s 0); discriminate H.
  - destruct l as [|first rest]; [discriminate H|].
    cbn [subscript_zero index nth_error bind] in H.
    destruct first as [| | | | | |choice]; try discriminate H.
    unfold subscript_key at 1 in H. unfold subscript in H.
    destruct (dict_get choice (lit "message")) as [msg|] eqn:Ec; [|discriminate H].
    cbn [bind] in H.
    destruct msg as [| | | | | |message]; try discriminate H.
    unfold subscript_key at 1 in H. unfold subscript in H.
    destruct (dict_get message (lit "content")) as [content|] eqn:Emsg;
      [|discriminate H].
    cbn [bind] in H.
    destruct (get_default (JObj m) (lit "citations") (JArr [])) as [cit|];
      [|discriminate H].
    cbn [bind] in H.
    destruct (iterate cit) as [items|]; [|discriminate H]. cbn [bind] in H.
    apply add_citations_extend in H as [tail ->].
    exists m, choice, rest, message, content, tail.
    repeat split; auto. repeat rewrite <- app_assoc. reflexivity.
Qed.

Lemma format_output_returns_witness :
  exists m choice rest message content tail,
    JObj sample_response = JObj m
    /\ dict_get m (lit "choices") = Some (JArr (JObj choice :: rest))
    /\ dict_get choice (lit "message") = Some (JObj message)
    /\ dict_get message (lit "content") = Some content
    /\ lit "
Research Results:

X

Sources:
- http://a
- http://b
" = lit "
Research Results:

" ++ format_value (fun _ => []) content ++ lit "

Sources:
" ++ tail.
Proof.
  apply (format_output_returns (fun _ => []) (JObj sample_response)); reflexivity.
Defined.

(** X13: one citation without the key [url] makes the whole call raise
    KeyError, however well formed the content and the citations before it
    are: no text is returned. *)
Theorem format_output_citation_without_url
  (str_of : json -> str) (m choice message bad : list (str * json))
  (rest : list json) (content : str) (urls : list str)
  (good behind : list json) :
  dict_get m (lit "choices") = Some (JArr (JObj choice :: rest)) ->
  dict_get choice (lit "message") = Some (JObj message) ->
  dict_get message (lit "content") = Some (JStr content) ->
  dict_get m (lit "citations") = Some (JArr (good ++ JObj bad :: behind)) ->
  Forall2 citation urls good ->
  dict_get bad (lit "url") = None ->
  format_output str_of (JObj m) = Raise (KeyError (KText (lit "url"))).
Proof.
  intros Hm Hc Hmsg Hcit Hgood Hbad. unfold format_output.
  destruct m as [|kv m']; [discriminate|]. cbn [truthy negb].
  unfold subscript_key at 1. unfold subscript. rewrite Hm.
  cbn [bind subscript_zero index nth_error].
  unfold subscript_key at 1. unfold subscript. rewrite Hc. cbn [bind].
  unfold subscript_key at 1. unfold subscript. rewrite Hmsg. cbn [bind].
  unfold get_default. rewrite Hcit. cbn [bind iterate].
  rewrite for_each_app, (add_citations str_of urls) by assumption.
  cbn [bind for_each]. unfold add_citation, subscript_key, subscript.
  rewrite Hbad. reflexivity.
Qed.

Lemma format_output_citation_without_url_witness :
  format_output (fun _ => [])
    (JObj [ (lit "choices",
              JArr [ JObj [ (lit "message",
                              JObj [ (lit "content", JStr (lit "X")) ]) ] ]);
            (lit "citations",
              JArr [ JObj [(lit "url", JStr (lit "http://a"))];
                     JObj [(lit "title", JStr (lit "b"))] ]) ])
  = Raise (KeyError (KText (lit "url"))).
Proof.
  apply (format_output_citation_without_url (fun _ => [])
           [ (lit "choices",
               JArr [ JObj [ (lit "message",
                               JObj [ (lit "content", JStr (lit "X")) ]) ] ]);
             (lit "citations",
               JArr [ JObj [(lit "url", JStr (lit "http://a"))];
                      JObj [(lit "title", JStr (lit "b"))] ]) ]
           [ (lit "message", JObj [ (lit "content", JStr (lit "X")) ]) ]
           [ (lit "content", JStr (lit "X")) ]
           [ (lit "title", JStr (lit "b")) ]
           [] (lit "X") [lit "http://a"]
           [ JObj [(lit "url", JStr (lit "http://a"))] ] []);
    try reflexivity.
  repeat constructor. eexists. split; reflexivity.
Defined.

(** ** The research query client *)

Lemma ok_true r : ok r = true -> raise_for_status r = Ok tt.
Proof.
  unfold ok. destruct (raise_for_status r) as [[]|e]; [reflexivity | discriminate].
Qed.

(** X14: a request that is answered with a status that is [ok] and a JSON
    body returns that body; one request is logged and no error is shown. *)
Theorem query_perplexity_returns_body
  (net : network) (prompt api_key : str) (log : list event)
  (r : response) (v : json) :
  net (perplexity_request prompt api_key) = Ok r ->
  ok r = true ->
  resp_json r = Ok v ->
  query_perplexity net prompt api_key log
  = (Ok v, log ++ [Post (perplexity_request prompt api_key)]).
Proof.
  intros Hnet Hok Hv. rewrite query_perplexity_cases, Hnet. cbn [bind].
  rewrite (ok_true r Hok). cbn [bind]. rewrite Hv. reflexivity.
Qed.

Lemma query_perplexity_returns_body_witness :
  query_perplexity multiple_choices (lit "p") (lit "k") []
  = (Ok (JObj []), [] ++ [Post (perplexity_request (lit "p") (lit "k"))]).
Proof.
  apply (query_perplexity_returns_body multiple_choices (lit "p") (lit "k") []
           (mkResponse 300 (lit "Multiple Choices") [] (Ok (JObj []))));
    reflexivity.
Defined.

(** X15: an exception that is not a RequestException, raised by the request
    or by reading the body, is not caught: the call raises it, and shows no
    error. *)
Theorem query_perplexity_propagates
  (net : network) (prompt api_key : str) (log : list event) (e : exn) :
  answer_of net (perplexity_request prompt api_key) = Raise e ->
  (forall msg, e <> RequestException msg) ->
  query_perplexity net prompt api_key log
  = (Raise e, log ++ [Post (perplexity_request prompt api_key)]).
Proof.
  unfold answer_of. intros Ha He. rewrite query_perplexity_cases, Ha.
  destruct e; try reflexivity. exfalso. eapply He. reflexivity.
Qed.

Lemma query_perplexity_propagates_witness :
  query_perplexity (fun _ => Raise TypeError) (lit "p") (lit "k") []
  = (Raise TypeError, [] ++ [Post (perplexity_request (lit "p") (lit "k"))]).
Proof.
  apply query_perplexity_propagates.
  - reflexivity.
  - discriminate.
Defined.

(** X16: the call never raises a RequestException, and it shows an error
    only when it returns [None]. *)
Theorem query_perplexity_never_raises_request_exception
  (net : network) (prompt api_key : str) (log : list event) :
  (forall msg,
     fst (query_perplexity net prompt api_key log) <> Raise (RequestException msg))
  /\ (forall text,
        In (StError text)
           (skipn (length log) (snd (query_perplexity net prompt api_key log))) ->
        fst (query_perplexity net prompt api_key log) = Ok JNull).
Proof.
  rewrite query_perplexity_cases.
  destruct (r <- net (perplexity_request prompt api_key) ;;
            _ <- raise_for_status r ;; resp_json r) as [v|e].
  - split; [discriminate|]. intros text.
    cbn [snd]. rewrite skipn_app, skipn_all, Nat.sub_diag. simpl.
    intros [H|[]]. discriminate H.
  - destruct e; cbn [fst snd]; (split; [discriminate|]); intros text;
      rewrite skipn_app, skipn_all, Nat.sub_diag; simpl;
      try (intros [H|[]]; discriminate H).
    reflexivity.
Qed.

(** X17: a body that cannot be read, where [response.json()] raises a
    RequestException, is treated like a failed request: the error is shown
    and [None] returned. *)
Theorem query_perplexity_unreadable_body
  (net : network) (prompt api_key : str) (log : list event)
  (r : response) (msg : str) :
  net (perplexity_request prompt api_key) = Ok r ->
  ok r = true ->
  resp_json r = Raise (RequestException msg) ->
  query_perplexity net prompt api_key log
  = (Ok JNull,
     log ++ [ Post (perplexity_request prompt api_key);
              StError (lit "Error querying Perplexity AI: " ++ msg) ]).
Proof.
  intros Hnet Hok Hv. rewrite query_perplexity_cases, Hnet. cbn [bind].
  rewrite (ok_true r Hok). cbn [bind]. rewrite Hv. reflexivity.
Qed.

Lemma query_perplexity_unreadable_body_witness :
  query_perplexity
    (fun _ => Ok (mkResponse 200 (lit "OK") []
                    (Raise (RequestException (lit "Expecting value")))))
    (lit "p") (lit "k") []
  = (Ok JNull,
     [] ++ [ Post (perplexity_request (lit "p") (lit "k"));
             StError (lit "Error querying Perplexity AI: " ++ lit "Expecting value") ]).
Proof.
  apply (query_perplexity_unreadable_body _ (lit "p") (lit "k") []
           (mkResponse 200 (lit "OK") []
              (Raise (RequestException (lit "Expecting value")))));
    reflexivity.
Defined.

Lemma perplexity_request_prompt prompt1 prompt2 api_key :
  perplexity_request prompt1 api_key = perplexity_request prompt2 api_key ->
  prompt1 = prompt2.
Proof. unfold perplexity_request. intros H. injection H as H. exact H. Qed.

(** X18: for a fixed depth and focus, different topics give different
    instructions, and so different requests. *)
Theorem create_prompt_injective
  (topic1 topic2 : str) (depth : Z) (focus api_key : str) :
  perplexity_request (create_prompt topic1 depth focus) api_key
  = perplexity_request (create_prompt topic2 depth focus) api_key ->
  topic1 = topic2.
Proof.
  intros H. apply perplexity_request_prompt in H. unfold create_prompt in H.
  apply app_inv_head in H. apply app_inv_head in H.
  apply app_inv_tail in H. exact H.
Qed.

Lemma create_prompt_injective_witness : lit "LiDAR" = lit "LiDAR".
Proof.
  apply (create_prompt_injective (lit "LiDAR") (lit "LiDAR") 3 (lit "Solar") (lit "k")).
  reflexivity.
Defined.

(** ** The research loop of the page *)

Lemma markdowns_app log1 log2 :
  markdowns (log1 ++ log2) = markdowns log1 + markdowns log2.
Proof.
  induction log1 as [|[r|msg|text] log1 IH]; simpl; auto.
Qed.

Section LoopFacts.

Variable net : network.
Variable str_of : json -> str.
Variables (depth : Z) (research_field api_key : str).

Let request_for (topic : str) : request :=
  perplexity_request (create_prompt topic depth research_field) api_key.

(** One turn of the loop, by the outcome of its query and of the
    formatter. *)
Lemma research_result_cases topic log :
  research_result net str_of depth research_field api_key topic log
  = match answer_of net (request_for topic) with
    | Ok v =>
        match format_output str_of v with
        | Ok out => (Ok tt, log ++ [Post (request_for topic); StMarkdown out])
        | Raise e => (Raise e, log ++ [Post (request_for topic)])
        end
    | Raise (RequestException msg) =>
        (Ok tt,
         log ++ [ Post (request_for topic);
                  StError (lit "Error querying Perplexity AI: " ++ msg);
                  StMarkdown no_response ])
    | Raise e => (Raise e, log ++ [Post (request_for topic)])
    end.
Proof.
  unfold research_result, io_bind at 1. rewrite query_perplexity_cases.
  unfold answer_of, request_for.
  destruct (r <- net (perplexity_request
                        (create_prompt topic depth research_field) api_key) ;;
            _ <- raise_for_status r ;; resp_json r) as [v|e].
  - unfold io_bind, io_lift, emit.
    destruct (format_output str_of v) as [out|e]; [|reflexivity].
    rewrite <- app_assoc. reflexivity.
  - destruct e; try reflexivity.
    unfold io_bind, io_lift, emit. cbn. rewrite <- app_assoc. reflexivity.
Qed.

(** What a turn adds to the log: one attempt, and one result if it
    returns. *)
Lemma research_result_log topic log :
  exists added,
    snd (research_result net str_of depth research_field api_key topic log)
    = log ++ added
    /\ attempts added = 1
    /\ (fst (research_result net str_of depth research_field api_key topic log)
        = Ok tt -> markdowns added = 1).
Proof.
  rewrite research_result_cases.
  destruct (answer_of net (request_for topic)) as [v|e].
  - destruct (format_output str_of v) as [out|e]; eexists;
      (split; [reflexivity|]); split; try reflexivity; discriminate.
  - destruct e; eexists; (split; [reflexivity|]); split;
      try reflexivity; discriminate.
Qed.

Lemma research_results_cons topic topics log :
  research_results net str_of depth research_field api_key (topic :: topics) log
  = match research_result net str_of depth research_field api_key topic log with
    | (Ok _, log1) =>
        research_results net str_of depth research_field api_key topics log1
    | (Raise e, log1) => (Raise e, log1)
    end.
Proof. reflexivity. Qed.

Lemma research_results_log topics : forall log,
  exists added,
    snd (research_results net str_of depth research_field api_key topics log)
    = log ++ added
    /\ attempts added <= length topics
    /\ (fst (research_results net str_of depth research_field api_key topics log)
        = Ok tt ->
        attempts added = length topics /\ markdowns added = length topics).
Proof.
  induction topics as [|topic topics IH]; intros log.
  - exists []. cbn. rewrite app_nil_r. auto.
  - rewrite research_results_cons.
    destruct (research_result_log topic log) as (a1 & Hlog & Hatt & Hmd).
    destruct (research_result net str_of depth research_field api_key topic log)
      as [[[]|e] log1]; cbn [fst snd] in *; subst log1.
    + destruct (IH (log ++ a1)) as (a2 & Hlog2 & Hatt2 & Hok2).
      exists (a1 ++ a2). rewrite app_assoc. split; [assumption|].
      rewrite attempts_app, markdowns_app. cbn [length]. split; [lia|].
      intros H. destruct (Hok2 H). rewrite (Hmd eq_refl). lia.
    + exists a1. split; [reflexivity|]. cbn [length]. split; [lia|discriminate].
Qed.

End LoopFacts.

(** X19: the loop over the sampled prompts makes at most one request attempt
    per prompt, whatever the network does, and when it returns it has made
    exactly one attempt and shown exactly one result for every prompt. *)
Theorem research_results_one_attempt_each
  (net : network) (str_of : json -> str) (depth : Z)
  (research_field api_key : str) (prompts : list str) (log : list event) :
  let run := research_results net str_of depth research_field api_key prompts log in
  attempts (snd run) <= attempts log + length prompts
  /\ (fst run = Ok tt ->
      attempts (snd run) = attempts log + length prompts
      /\ markdowns (snd run) = markdowns log + length prompts).
Proof.
  intros run. unfold run.
  destruct (research_results_log net str_of depth research_field api_key prompts log)
    as (added & -> & Hle & Hok).
  rewrite attempts_app, markdowns_app. split; [lia|].
  intros H. destruct (Hok H). lia.
Qed.

Lemma research_results_one_attempt_each_witness :
  attempts (snd (research_results offline (fun _ => []) 3 (lit "Solar") (lit "k")
                   [lit "a"; lit "b"] []))
  = attempts [] + length [lit "a"; lit "b"]
  /\ markdowns (snd (research_results offline (fun _ => []) 3 (lit "Solar") (lit "k")
                       [lit "a"; lit "b"] []))
     = markdowns [] + length [lit "a"; lit "b"].
Proof.
  apply (research_results_one_attempt_each offline (fun _ => []) 3 (lit "Solar")
           (lit "k") [lit "a"; lit "b"] []).
  reflexivity.
Defined.

(** X20: when every query fails, the loop still returns, and what it adds
    to the log is, for each prompt in turn, the request for that prompt, the
    error shown and the fixed message as result. *)
Theorem research_results_all_failed
  (net : network) (str_of : json -> str) (depth : Z)
  (research_field api_key : str) (prompts : list str) (log : list event) :
  (forall req, failed_query (net req)) ->
  exists msgs,
    length msgs = length prompts
    /\ research_results net str_of depth research_field api_key prompts log
       = (Ok tt,
          log ++ concat
                   (map (fun pm =>
                           [ Post (perplexity_request
                                     (create_prompt (fst pm) depth research_field)
                                     api_key);
                             StError (lit "Error querying Perplexity AI: " ++ snd pm);
                             StMarkdown no_response ])
                        (combine prompts msgs))).
Proof.
  intros Hfail. revert log.
  induction prompts as [|topic prompts IH]; intros log.
  - exists []. cbn. rewrite app_nil_r. auto.
  - cbn [research_results]. unfold io_bind at 1.
    unfold research_result, io_bind at 1.
    destruct (query_perplexity_failed net
                (create_prompt topic depth research_field) api_key log
                (Hfail _)) as [msg ->].
    unfold io_bind, io_lift, emit. cbn [format_output truthy negb].
    cbn [fst snd].
    match goal with
    | |- context [research_results _ _ _ _ _ prompts ?l] =>
        destruct (IH l) as (msgs & Hlen & ->)
    end.
    exists (msg :: msgs). split; [cbn [length]; lia|].
    cbn [combine map concat fst snd]. repeat rewrite <- app_assoc. reflexivity.
Qed.

Lemma research_results_all_failed_witness :
  exists msgs,
    length msgs = length [lit "a"; lit "b"]
    /\ research_results offline (fun _ => []) 3 (lit "Solar") (lit "k")
         [lit "a"; lit "b"] []
       = (Ok tt,
          [] ++ concat
                  (map (fun pm =>
                          [ Post (perplexity_request
                                    (create_prompt (fst pm) 3 (lit "Solar"))
                                    (lit "k"));
                            StError (lit "Error querying Perplexity AI: " ++ snd pm);
                            StMarkdown no_response ])
                       (combine [lit "a"; lit "b"] msgs))).
Proof.
  apply research_results_all_failed.
  intros req. left. eexists. reflexivity.
Defined.

(** X21: an answer that the formatter cannot read ends the loop: the
    exception of the formatter is raised, and no request is sent for the
    remaining prompts. *)
Theorem research_results_malformed_answer
  (net : network) (str_of : json -> str) (depth : Z)
  (research_field api_key : str) (topic : str) (rest : list str)
  (log : list event) (v : json) (e : exn) :
  answer_of net (perplexity_request (create_prompt topic depth research_field) api_key)
  = Ok v ->
  format_output str_of v = Raise e ->
  research_results net str_of depth research_field api_key (topic :: rest) log
  = (Raise e,
     log ++ [Post (perplexity_request (create_prompt topic depth research_field)
                     api_key)]).
Proof.
  intros Ha Hf. rewrite research_results_cons.
  rewrite research_result_cases, Ha, Hf. reflexivity.
Qed.

Lemma research_results_malformed_answer_witness :
  research_results choiceless (fun _ => []) 3 (lit "Solar") (lit "k")
    [lit "a"; lit "b"] []
  = (Raise (KeyError (KText (lit "choices"))),
     [] ++ [Post (perplexity_request (create_prompt (lit "a") 3 (lit "Solar"))
                    (lit "k"))]).
Proof.
  apply (research_results_malformed_answer choiceless (fun _ => []) 3
           (lit "Solar") (lit "k") (lit "a") [lit "b"] []
           (JObj [(lit "error", JStr (lit "none"))])).
  - reflexivity.
  - reflexivity.
Defined.

(** ** The two modes of the page *)

Lemma page_attempts_app log1 log2 :
  page_attempts (log1 ++ log2) = page_attempts log1 + page_attempts log2.
Proof.
  induction log1 as [|[[r|msg|text]|text|text] log1 IH]; simpl; auto.
Qed.

Lemma page_writes_app log1 log2 :
  page_writes (log1 ++ log2) = page_writes log1 + page_writes log2.
Proof.
  induction log1 as [|[e|text|text] log1 IH]; simpl; auto.
Qed.

Lemma page_attempts_core log : page_attempts (map Core log) = attempts log.
Proof.
  induction log as [|[r|msg|text] log IH]; simpl; auto.
Qed.

Lemma page_writes_core log : page_writes (map Core log) = 0.
Proof.
  induction log as [|e log IH]; simpl; auto.
Qed.

(** Writing the prompts never raises and adds one line per prompt. *)
Lemma write_prompts_log prompts : forall i log,
  exists added,
    write_prompts i prompts log = (Ok tt, log ++ added)
    /\ page_writes added = length prompts
    /\ page_attempts added = 0.
Proof.
  induction prompts as [|p prompts IH]; intros i log.
  - exists []. cbn. rewrite app_nil_r. auto.
  - cbn [write_prompts]. unfold page_bind, st_write, page_emit.
    destruct (IH (i + 1)%Z (log ++ [StWrite (decimal i ++ lit ". " ++ p)]))
      as (added & -> & Hw & Ha).
    eexists. rewrite <- app_assoc. split; [reflexivity|].
    cbn [app page_writes page_attempts length]. auto.
Qed.

Section ModeFacts.

Variable generate_research_categories : str -> str -> py str.
Variable net : network.
Variable str_of : json -> str.
Variable api_key : str.

(** What the button of the first mode does once the prompts are sampled. *)
Lemma generate_and_query_sampled field topic n depth g text res prompts log :
  generate_research_categories field topic = Ok text ->
  parse_research_categories text = Ok res ->
  generate_research_prompts res n g = Ok prompts ->
  exists written,
    page_writes written = length prompts
    /\ page_attempts written = 0
    /\ generate_and_query generate_research_categories net str_of api_key
         field topic n depth g log
       = (fst (research_results net str_of depth field api_key prompts []),
          log ++ written
            ++ map Core (snd (research_results net str_of depth field api_key
                                prompts []))).
Proof.
  intros Hllm Hparse Hsample.
  unfold generate_and_query, page_bind at 1, page_lift at 1. rewrite Hllm.
  unfold page_bind at 1, page_lift at 1. rewrite Hparse.
  unfold page_bind at 1, page_lift at 1. rewrite Hsample.
  unfold page_bind at 1, st_subheader at 1, page_emit at 1.
  unfold page_bind at 1.
  destruct (write_prompts_log prompts 1
              (log ++ [StSubheader (lit "Generated Research Prompts:")]))
    as (added & -> & Hw & Ha).
  unfold page_bind, st_subheader, page_emit, page_io.
  destruct (research_results net str_of depth field api_key prompts [])
    as [r l].
  exists ([StSubheader (lit "Generated Research Prompts:")] ++ added
            ++ [StSubheader (lit "Research Results:")]).
  rewrite !page_writes_app, !page_attempts_app. cbn [page_writes page_attempts].
  split; [lia|]. split; [lia|].
  cbn [fst snd]. repeat rewrite <- app_assoc. reflexivity.
Qed.

End ModeFacts.

(** X22: when the answer of the language model holds no marker and one or
    more prompts are asked for, as the slider enforces, pressing the button
    of the first mode raises IndexError; nothing is shown and no request is
    sent. *)
Theorem generate_and_query_no_marker
  (generate_research_categories : str -> str -> py str) (net : network)
  (str_of : json -> str) (api_key field topic : str) (n depth : Z) (g : rng)
  (text : str) (log : list page_event) :
  generate_research_categories field topic = Ok text ->
  no_marker text ->
  (0 < n)%Z ->
  generate_and_query generate_research_categories net str_of api_key
    field topic n depth g log
  = (Raise IndexError, log).
Proof.
  intros Hllm Hno Hn.
  unfold generate_and_query, page_bind at 1, page_lift at 1. rewrite Hllm.
  unfold page_bind at 1, page_lift at 1.
  assert (Hparse : parse_research_categories text = Ok []).
  { unfold parse_research_categories.
    rewrite re_split_marker_unfold, find_match_no_marker by assumption.
    reflexivity. }
  rewrite Hparse. unfold page_bind at 1, page_lift at 1.
  unfold generate_research_prompts.
  destruct (Z.to_nat n) as [|turns] eqn:E; [lia|]. reflexivity.
Qed.

Lemma generate_and_query_no_marker_witness :
  generate_and_query (fun _ _ => Ok (lit "I cannot help with that."))
    offline (fun _ => []) (lit "k") (lit "Solar") (lit "Drones") 4 3 (draws []) []
  = (Raise IndexError, []).
Proof.
  apply (generate_and_query_no_marker _ offline (fun _ => []) (lit "k")
           (lit "Solar") (lit "Drones") 4 3 (draws [])
           (lit "I cannot help with that.")).
  - reflexivity.
  - apply has_marker_false. vm_compute. reflexivity.
  - lia.
Defined.

(** X23: when the button of the first mode returns, it has written one line
    for each of the prompts asked for and has sent one request for each. *)
Theorem generate_and_query_counts
  (generate_research_categories : str -> str -> py str) (net : network)
  (str_of : json -> str) (api_key field topic : str) (n depth : Z) (g : rng)
  (log : list page_event) :
  let run := generate_and_query generate_research_categories net str_of api_key
               field topic n depth g log in
  fst run = Ok tt ->
  page_writes (snd run) = page_writes log + Z.to_nat n
  /\ page_attempts (snd run) = page_attempts log + Z.to_nat n.
Proof.
  intros run. unfold run.
  destruct (generate_research_categories field topic) as [text|e] eqn:Hllm.
  2:{ unfold generate_and_query, page_bind at 1, page_lift at 1. rewrite Hllm.
      discriminate. }
  destruct (parse_research_categories text) as [res|e] eqn:Hparse.
  2:{ unfold generate_and_query, page_bind at 1, page_lift at 1. rewrite Hllm.
      unfold page_bind at 1, page_lift at 1. rewrite Hparse. discriminate. }
  destruct (generate_research_prompts res n g) as [prompts|e] eqn:Hsample.
  2:{ unfold generate_and_query, page_bind at 1, page_lift at 1. rewrite Hllm.
      unfold page_bind at 1, page_lift at 1. rewrite Hparse.
      unfold page_bind at 1, page_lift at 1. rewrite Hsample. discriminate. }
  destruct (generate_and_query_sampled generate_research_categories net str_of
              api_key field topic n depth g text res prompts log
              Hllm Hparse Hsample) as (written & Hw & Ha & ->).
  cbn [fst snd]. intros Hok.
  assert (Hlen : length prompts = Z.to_nat n).
  { unfold generate_research_prompts in Hsample.
    destruct (sample_loop res (Z.to_nat n) [] g) as [[ps g']|e] eqn:E;
      [|discriminate].
    cbn in Hsample. inversion Hsample; subst.
    apply sample_loop_sound in E as (more & -> & Hlen & _). exact Hlen. }
  destruct (research_results_log net str_of depth field api_key prompts [])
    as (added & Hlog & _ & Hcount).
  destruct (Hcount Hok) as [Hatt _]. cbn [app] in Hlog.
  rewrite !page_writes_app, !page_attempts_app, page_writes_core,
    page_attempts_core, Hlog, Hw, Ha, Hatt, Hlen.
  lia.
Qed.

Lemma generate_and_query_counts_witness :
  page_writes
    (snd (generate_and_query
            (fun _ _ => Ok (lit "**1. Drones
* **Research Prompt:** third"))
            offline (fun _ => []) (lit "k") (lit "Solar") (lit "Drones") 2 3
            (draws []) []))
  = page_writes [] + Z.to_nat 2
  /\ page_attempts
       (snd (generate_and_query
               (fun _ _ => Ok (lit "**1. Drones
* **Research Prompt:** third"))
               offline (fun _ => []) (lit "k") (lit "Solar") (lit "Drones") 2 3
               (draws []) []))
     = page_attempts [] + Z.to_nat 2.
Proof.
  apply (generate_and_query_counts
           (fun _ _ => Ok (lit "**1. Drones
* **Research Prompt:** third"))
           offline (fun _ => []) (lit "k") (lit "Solar") (lit "Drones") 2 3
           (draws []) []).
  vm_compute. reflexivity.
Defined.

(** X24: in the second mode a failed query is shown as the error, the
    subheader and the fixed message; the button returns. *)
Theorem direct_query_failed
  (net : network) (str_of : json -> str) (api_key user_prompt : str)
  (log : list page_event) :
  failed_query (net (perplexity_request user_prompt api_key)) ->
  exists msg,
    direct_query net str_of api_key user_prompt log
    = (Ok tt,
       log ++ [ Core (Post (perplexity_request user_prompt api_key));
                Core (StError (lit "Error querying Perplexity AI: " ++ msg));
                StSubheader (lit "Research Result:");
                Core (StMarkdown no_response) ]).
Proof.
  intros Hfail.
  destruct (query_perplexity_failed net user_prompt api_key [] Hfail) as [msg Hq].
  exists msg. unfold direct_query, page_bind at 1, page_io, io_bind.
  rewrite Hq. unfold io_lift. cbn [format_output truthy negb].
  unfold page_bind, st_subheader, st_markdown, page_emit. cbn [app map].
  repeat rewrite <- app_assoc. reflexivity.
Qed.

Lemma direct_query_failed_witness :
  exists msg,
    direct_query offline (fun _ => []) (lit "k") (lit "What is LiDAR?") []
    = (Ok tt,
       [] ++ [ Core (Post (perplexity_request (lit "What is LiDAR?") (lit "k")));
               Core (StError (lit "Error querying Perplexity AI: " ++ msg));
               StSubheader (lit "Research Result:");
               Core (StMarkdown no_response) ]).
Proof.
  apply direct_query_failed. left. eexists. reflexivity.
Defined.

(** X25: in the second mode an answer is shown as the formatter returns it,
    under the subheader; and when the formatter raises on the answer, the
    button raises with nothing shown. *)
Theorem direct_query_answer
  (net : network) (str_of : json -> str) (api_key user_prompt : str)
  (log : list page_event) (v : json) :
  answer_of net (perplexity_request user_prompt api_key) = Ok v ->
  direct_query net str_of api_key user_prompt log
  = match format_output str_of v with
    | Ok out =>
        (Ok tt,
         log ++ [ Core (Post (perplexity_request user_prompt api_key));
                  StSubheader (lit "Research Result:");
                  Core (StMarkdown out) ])
    | Raise e =>
        (Raise e, log ++ [Core (Post (perplexity_request user_prompt api_key))])
    end.
Proof.
  unfold answer_of. intros Ha.
  unfold direct_query, page_bind at 1, page_io, io_bind.
  rewrite query_perplexity_cases, Ha. unfold io_lift.
  destruct (format_output str_of v) as [out|e]; [|reflexivity].
  unfold page_bind, st_subheader, st_markdown, page_emit. cbn [app map].
  repeat rewrite <- app_assoc. reflexivity.
Qed.

Lemma direct_query_answer_witness :
  direct_query choiceless (fun _ => []) (lit "k") (lit "p") []
  = match format_output (fun _ => []) (JObj [(lit "error", JStr (lit "none"))]) with
    | Ok out =>
        (Ok tt,
         [] ++ [ Core (Post (perplexity_request (lit "p") (lit "k")));
                 StSubheader (lit "Research Result:");
                 Core (StMarkdown out) ])
    | Raise e =>
        (Raise e, [] ++ [Core (Post (perplexity_request (lit "p") (lit "k")))])
    end.
Proof.
  apply (direct_query_answer choiceless (fun _ => []) (lit "k") (lit "p") []).
  reflexivity.
Defined.

(** ** Two calls of the parser *)

Lemma app_same_length {A} (a b c d : list A) :
  a ++ b = c ++ d -> length a = length c -> a = c /\ b = d.
Proof.
  revert c. induction a as [|x a IH]; intros [|y c] H Hlen;
    try discriminate Hlen; simpl in *; [auto|].
  inversion H; subst. destruct (IH c) as [-> ->]; auto.
Qed.

Lemma find_match_first matcher s before rest :
  find_match matcher s = Some (before, rest) ->
  forall i, i < length before -> matcher (skipn i s) = None.
Proof.
  revert before. induction s as [|c s IH]; intros before; simpl.
  - destruct (matcher []); [|discriminate].
    intros H. inversion H; subst. simpl. lia.
  - destruct (matcher (c :: s)) eqn:E.
    + intros H. inversion H; subst. simpl. lia.
    + destruct (find_match matcher s) as [[b r]|] eqn:E'; [|discriminate].
      intros H. inversion H; subst. intros [|i] Hi; [exact E|].
      apply (IH b eq_refl). simpl in Hi. lia.
Qed.

Lemma forallb_rev (f : ascii -> bool) l : forallb f (rev l) = forallb f l.
Proof.
  induction l as [|c l IH]; simpl; [reflexivity|].
  rewrite forallb_app, IH. simpl. rewrite andb_true_r. apply andb_comm.
Qed.

(** *** The separator *)

(** The rules of [str.split] leave one result, the one of [str_split]. *)
Lemma cut_at_str_split sep s pieces :
  sep <> [] -> cut_at sep s pieces -> pieces = str_split sep s.
Proof.
  intros Hsep H. induction H as [s Hno | s before rest pieces -> Hleft _ IH].
  - symmetry. apply str_split_none; assumption.
  - rewrite str_split_unfold by assumption. rewrite find_match_skip.
    + rewrite (find_match_here (strip_prefix sep) (sep ++ rest) rest)
        by (apply strip_prefix_app; reflexivity).
      rewrite app_nil_r, IH. reflexivity.
    + intros i Hi.
      destruct (strip_prefix sep (skipn i before ++ sep ++ rest)) as [r|] eqn:E;
        [|reflexivity].
      exfalso. apply strip_prefix_app in E.
      assert (Hlen : length before <= length (firstn i before)).
      { apply (Hleft (firstn i before) r).
        rewrite <- E. rewrite <- (firstn_skipn i before) at 1.
        rewrite <- app_assoc. reflexivity. }
      rewrite length_firstn in Hlen. lia.
Qed.

Lemma str_split_cut_at_bounded sep n : forall s,
  sep <> [] -> length s <= n -> cut_at sep s (str_split sep s).
Proof.
  induction n as [|n IH]; intros s Hsep Hlen;
    rewrite str_split_unfold by assumption;
    destruct (find_match (strip_prefix sep) s) as [[before rest]|] eqn:E.
  - apply find_match_shorter in E;
      [lia | intros s0 r; apply strip_prefix_progress, Hsep].
  - apply cut_no_sep. intros (b & r & ->).
    pose proof (find_match_none_everywhere _ _ E (length b)) as H.
    rewrite skipn_app, skipn_all, Nat.sub_diag in H. simpl in H.
    assert (H' : strip_prefix sep (sep ++ r) = Some r)
      by (apply strip_prefix_app; reflexivity).
    congruence.
  - pose proof (find_match_shorter (strip_prefix sep)
                  (fun s0 r => strip_prefix_progress sep s0 r Hsep)
                  s before rest E) as Hshort.
    pose proof (find_match_first _ _ _ _ E) as Hfirst.
    apply find_match_some in E as (s' & -> & Hs').
    apply strip_prefix_app in Hs'. subst s'.
    apply (cut_sep sep _ before rest); [reflexivity | | apply IH; [assumption|lia]].
    intros b' r' Heq.
    destruct (Nat.le_gt_cases (length before) (length b')) as [Hle|Hgt];
      [exact Hle|].
    exfalso. specialize (Hfirst (length b') Hgt).
    rewrite Heq, skipn_app, skipn_all, Nat.sub_diag in Hfirst. simpl in Hfirst.
    assert (H' : strip_prefix sep (sep ++ r') = Some r')
      by (apply strip_prefix_app; reflexivity).
    congruence.
  - apply cut_no_sep. intros (b & r & ->).
    pose proof (find_match_none_everywhere _ _ E (length b)) as H.
    rewrite skipn_app, skipn_all, Nat.sub_diag in H. simpl in H.
    assert (H' : strip_prefix sep (sep ++ r) = Some r)
      by (apply strip_prefix_app; reflexivity).
    congruence.
Qed.

Lemma str_split_cut_at sep s : sep <> [] -> cut_at sep s (str_split sep s).
Proof.
  intros Hsep. apply (str_split_cut_at_bounded sep (length s)); auto.
Qed.

(** *** The marker *)

Lemma marker_more_space m w : marker m -> is_space w = true -> marker (m ++ [w]).
Proof.
  intros (ds & ws & -> & Hds & Hdigits & Hws & Hspaces) Hw.
  exists ds, (ws ++ [w]). repeat split; auto.
  - repeat rewrite <- app_assoc. reflexivity.
  - destruct ws; discriminate.
  - rewrite forallb_app, Hspaces. simpl. rewrite Hw. reflexivity.
Qed.

(** The rules of [re.split] leave one result, the one of [re_split_marker]. *)
Lemma cut_at_markers_re_split text pieces :
  cut_at_markers text pieces -> pieces = re_split_marker text.
Proof.
  intros H.
  induction H as [text Hno | text before m rest pieces -> Hm Hleft Hlong _ IH].
  - rewrite re_split_marker_unfold, find_match_no_marker by assumption.
    reflexivity.
  - rewrite re_split_marker_unfold, find_match_skip.
    + assert (Hrest : drop_while is_space rest = rest).
      { destruct rest as [|w rest']; [reflexivity|]. simpl.
        destruct (is_space w) eqn:Hw; [|reflexivity]. exfalso.
        assert (Hlen : length (m ++ [w]) <= length m).
        { apply (Hlong (m ++ [w]) rest'); [apply marker_more_space; assumption|].
          rewrite <- app_assoc. reflexivity. }
        rewrite length_app in Hlen. simpl in Hlen. lia. }
      rewrite (find_match_here match_marker (m ++ rest) rest)
        by (rewrite match_marker_complete, Hrest by assumption; reflexivity).
      rewrite app_nil_r, IH. reflexivity.
    + intros i Hi.
      destruct (match_marker (skipn i before ++ m ++ rest)) as [r|] eqn:E;
        [|reflexivity].
      exfalso. apply match_marker_sound in E as (m' & Hm' & E).
      assert (Hlen : length before <= length (firstn i before)).
      { apply (Hleft (firstn i before) m' r Hm').
        rewrite <- E. rewrite <- (firstn_skipn i before) at 1.
        rewrite <- app_assoc. reflexivity. }
      rewrite length_firstn in Hlen. lia.
Qed.

Lemma find_match_no_marker_inv text :
  find_match match_marker text = None -> no_marker text.
Proof.
  intros H. apply no_marker_no_match. apply find_match_none_everywhere, H.
Qed.

Lemma re_split_cut_at_markers_bounded n : forall text,
  length text <= n -> cut_at_markers text (re_split_marker text).
Proof.
  induction n as [|n IH]; intros text Hlen;
    rewrite re_split_marker_unfold;
    destruct (find_match match_marker text) as [[before rest]|] eqn:E.
  - apply find_match_shorter in E; [lia | exact match_marker_progress].
  - apply cut_no_marker, find_match_no_marker_inv, E.
  - pose proof (find_match_shorter match_marker match_marker_progress
                  text before rest E) as Hshort.
    pose proof (find_match_first _ _ _ _ E) as Hfirst.
    apply find_match_some in E as (s' & -> & Hs').
    assert (Hmatch := Hs').
    apply match_marker_sound in Hs' as (m & Hm & ->).
    apply (cut_marker _ before m rest); auto.
    + intros b' m' r' Hm' Heq.
      destruct (Nat.le_gt_cases (length before) (length b')) as [Hle|Hgt];
        [exact Hle|].
      exfalso. specialize (Hfirst (length b') Hgt).
      rewrite Heq, skipn_app, skipn_all, Nat.sub_diag in Hfirst. simpl in Hfirst.
      rewrite match_marker_complete in Hfirst by assumption. discriminate.
    + intros m' r' Hm' Heq. rewrite Heq in Hmatch.
      rewrite match_marker_complete in Hmatch by assumption.
      inversion Hmatch as [Hrest].
      destruct (drop_while_run is_space r') as (run & Hr' & _).
      rewrite Hrest in Hr'.
      apply (f_equal (@length ascii)) in Heq. rewrite Hr' in Heq.
      rewrite !length_app in Heq. lia.
    + apply IH. lia.
  - apply cut_no_marker, find_match_no_marker_inv, E.
Qed.

Lemma re_split_cut_at_markers text : cut_at_markers text (re_split_marker text).
Proof. apply (re_split_cut_at_markers_bounded (length text)). auto. Qed.

(** *** The two ends *)

(** The rule of [str.strip] leaves one result, the one of [strip_by]. *)
Lemma stripped_strip_by f s t : stripped f s t -> t = strip_by f s.
Proof.
  intros (l & r & -> & Hl & Hr & Hhead & Hlast).
  unfold strip_by, lstrip_by, rstrip_by.
  rewrite drop_while_app, Hl.
  destruct t as [|c t].
  - cbn [app]. rewrite (drop_while_all f r Hr). reflexivity.
  - cbn [app drop_while]. rewrite (Hhead c t eq_refl).
    change (c :: t ++ r) with ((c :: t) ++ r).
    rewrite rev_app_distr, drop_while_app, forallb_rev, Hr.
    destruct (rev (c :: t)) as [|x y] eqn:Erev.
    + apply (f_equal (@rev ascii)) in Erev. rewrite rev_involutive in Erev.
      discriminate.
    + assert (Ht : c :: t = rev y ++ [x]).
      { rewrite <- (rev_involutive (c :: t)), Erev. reflexivity. }
      cbn [drop_while]. rewrite (Hlast x (rev y) Ht). cbn [rev]. exact Ht.
Qed.

Lemma strip_by_stripped f s : stripped f s (strip_by f s).
Proof.
  unfold strip_by, lstrip_by, rstrip_by.
  destruct (drop_while_run f s) as (l & Hs & Hl).
  set (x := drop_while f s) in *.
  destruct (drop_while_run f (rev x)) as (r & Hx & Hr).
  apply (f_equal (@rev ascii)) in Hx. rewrite rev_involutive, rev_app_distr in Hx.
  exists l, (rev r). split; [rewrite <- Hx; exact Hs|].
  split; [exact Hl|]. split; [rewrite forallb_rev; exact Hr|]. split.
  - intros c t' Ht. rewrite Ht in Hx. cbn [app] in Hx.
    unfold x in Hx. apply drop_while_head in Hx. exact Hx.
  - intros c t' Ht. apply (f_equal (@rev ascii)) in Ht.
    rewrite rev_involutive, rev_app_distr in Ht. cbn [rev app] in Ht.
    apply drop_while_head in Ht. exact Ht.
Qed.

(** *** The parser *)

(** The file's own operations follow the rules. *)
Lemma python_conforming : conforming python.
Proof.
  split; [exact re_split_cut_at_markers|].
  split; [intros sep s Hsep; apply str_split_cut_at, Hsep|].
  split; [exact strip_by_stripped|].
  intros s p. apply startswith_app.
Qed.

(** A runtime that follows the rules behaves like the file's own. *)
Lemma conforming_python rt :
  conforming rt ->
  (forall text, rt_re_split rt text = re_split_marker text)
  /\ (forall sep s, sep <> [] -> rt_split rt sep s = str_split sep s)
  /\ (forall f s, rt_strip rt f s = strip_by f s)
  /\ (forall s p, rt_startswith rt s p = startswith s p).
Proof.
  intros (Hre & Hsplit & Hstrip & Hstarts).
  split; [intros text; apply cut_at_markers_re_split, Hre|].
  split; [intros sep s Hsep; apply cut_at_str_split; auto|].
  split; [intros f s; apply stripped_strip_by, Hstrip|].
  intros s p. destruct (startswith s p) eqn:E.
  - apply Hstarts, startswith_app, E.
  - destruct (rt_startswith rt s p) eqn:E'; [|reflexivity].
    apply Hstarts, startswith_app in E'. congruence.
Qed.

Lemma for_each_ext {A S} (body1 body2 : S -> A -> py S) :
  (forall s a, body1 s a = body2 s a) ->
  forall l s, for_each body1 l s = for_each body2 l s.
Proof.
  intros H l. induction l as [|a l IH]; intros s; simpl; [reflexivity|].
  rewrite H. destruct (body2 s a); simpl; auto.
Qed.

Lemma parse_line_on_conforming rt d line :
  conforming rt -> parse_line_on rt d line = parse_line d line.
Proof.
  intros Hrt. destruct (conforming_python rt Hrt) as (_ & Hsplit & Hstrip & Hstarts).
  unfold parse_line_on, parse_line, strip, strip_stars.
  rewrite !Hstarts.
  rewrite (Hsplit (lit "**Description:**")) by discriminate.
  rewrite (Hsplit (lit "**Research Prompt:**")) by discriminate.
  rewrite (Hsplit (lit "**Key Concepts:**")) by discriminate.
  destruct (startswith line (lit "* **Description:**")).
  { destruct (index (str_split (lit "**Description:**") line) 1); [|reflexivity].
    cbn [bind]. rewrite Hstrip. reflexivity. }
  destruct (startswith line (lit "* **Research Prompt:**")).
  { destruct (index (str_split (lit "**Research Prompt:**") line) 1); [|reflexivity].
    cbn [bind]. rewrite !Hstrip. reflexivity. }
  destruct (startswith line (lit "* **Key Concepts:**")); [|reflexivity].
  destruct (index (str_split (lit "**Key Concepts:**") line) 1); [|reflexivity].
  cbn [bind]. rewrite Hstrip, Hsplit by discriminate.
  do 3 f_equal. apply map_ext. intros c. apply Hstrip.
Qed.

Lemma parse_category_on_conforming rt research_dict category :
  conforming rt ->
  parse_category_on rt research_dict category = parse_category research_dict category.
Proof.
  intros Hrt. destruct (conforming_python rt Hrt) as (_ & Hsplit & Hstrip & _).
  unfold parse_category_on, parse_category, strip, strip_stars.
  rewrite Hstrip, Hsplit by discriminate.
  destruct (index (str_split newline (strip_by is_space category)) 0)
    as [name_line|e]; [|reflexivity].
  cbn [bind]. rewrite Hstrip.
  rewrite (for_each_ext (parse_line_on rt) parse_line); [reflexivity|].
  intros d line. apply parse_line_on_conforming, Hrt.
Qed.

Lemma parse_on_conforming rt text :
  conforming rt ->
  parse_research_categories_on rt text = parse_research_categories text.
Proof.
  intros Hrt. destruct (conforming_python rt Hrt) as (Hre & _).
  unfold parse_research_categories_on, parse_research_categories.
  rewrite Hre. apply for_each_ext. intros research_dict category.
  apply parse_category_on_conforming, Hrt.
Qed.

Lemma strip_right_first_stripped f s : stripped f s (strip_right_first f s).
Proof.
  unfold strip_right_first, lstrip_by, rstrip_by.
  destruct (drop_while_run f (rev s)) as (r & Hs & Hr).
  set (y := drop_while f (rev s)) in *.
  destruct (drop_while_run f (rev y)) as (l & Hy & Hl).
  apply (f_equal (@rev ascii)) in Hs. rewrite rev_involutive, rev_app_distr in Hs.
  exists l, (rev r).
  split; [rewrite app_assoc, <- Hy; exact Hs|].
  split; [exact Hl|]. split; [rewrite forallb_rev; exact Hr|]. split.
  - intros c t' Ht. apply drop_while_head in Ht. exact Ht.
  - intros c t' Ht. rewrite Ht in Hy.
    apply (f_equal (@rev ascii)) in Hy.
    rewrite rev_involutive, app_assoc, rev_app_distr in Hy. cbn [rev app] in Hy.
    unfold y in Hy. apply drop_while_head in Hy. exact Hy.
Qed.

Lemma right_first_conforming : conforming right_first.
Proof.
  split; [exact re_split_cut_at_markers|].
  split; [intros sep s Hsep; apply str_split_cut_at, Hsep|].
  split; [exact strip_right_first_stripped|].
  intros s p. apply startswith_app.
Qed.


